(** * The visual-flow tracker scripts: a shallow embedding

    The repository is a set of standalone Python scripts that drive the
    [gh] command-line client.  Every script is a sequence of
    [subprocess.run] calls and [print]s around a few helper functions.

    The embedding is a state-and-exception monad over a [world] that
    records what was printed, which external invocations were made, and
    the state of the external system answering them.  Python exceptions
    are the [Raise] outcome; [try]/[except] is [try_except].  A call of
    [subprocess.run] either returns a completed process ([External]) or
    raises ([Faults]). *)

From Stdlib Require Import ZArith Lia Ascii String.
From stdpp Require Import base strings list gmap pretty sorting.

Set Warnings "-register-all".
Local Open Scope Z_scope.

(** ** Python values and exceptions *)

(** The values [json.loads] produces (JSON [null] is Python's [None]).
    A float is kept as what the scripts can observe of it: whether it is
    zero (truthiness) and its [repr] (what [str] and f-strings show). *)
Inductive pyval :=
| PyNone
| PyBool (b : bool)
| PyInt (n : Z)
| PyFloat (is_zero : bool) (repr : string)
| PyStr (s : string)
| PyList (l : list pyval)
| PyDict (kv : list (string * pyval)).

Inductive exn_kind :=
| NameError | JSONDecodeError | KeyError | TypeError | AttributeError
| OSError | UnicodeDecodeError | ValueError.

Record exn := Exn { kind : exn_kind; message : string }.

Inductive outcome (A : Type) :=
| Return (a : A)
| Raise (e : exn).
Arguments Return {A} a.
Arguments Raise {A} e.

(** What [subprocess.run(..., capture_output=True)] hands back. *)
Record CompletedProcess := {
  returncode : Z;
  stdout : string;
  stderr : string
}.

(** One external call: the argument vector and what is fed on stdin. *)
Record invocation := {
  argv : list string;
  input : option string
}.

#[export] Instance invocation_eq_dec : EqDecision invocation.
Proof. solve_decision. Defined.

Definition LF : string := String "010"%char EmptyString.
Definition DQ : string := String "034"%char EmptyString.
Definition SQ : string := "'".

(** ** String helpers of the Python runtime *)

Fixpoint py_mul (s : string) (n : nat) : string :=
  match n with
  | O => ""
  | S k => s +:+ py_mul s k
  end.

Fixpoint py_join (sep : string) (l : list string) : string :=
  match l with
  | [] => ""
  | [x] => x
  | x :: rest => x +:+ sep +:+ py_join sep rest
  end.

Fixpoint starts_with (p s : string) : bool :=
  match p, s with
  | EmptyString, _ => true
  | String a p', String b s' => if Ascii.eqb a b then starts_with p' s' else false
  | String _ _, EmptyString => false
  end.

(** [sub in s]. *)
Fixpoint contains (sub s : string) : bool :=
  starts_with sub s ||
  match s with
  | EmptyString => false
  | String _ s' => contains sub s'
  end.

(** [s.replace(old, new)] for a non-empty [old]: occurrences are replaced
    left to right without overlap; [skip] counts the characters of the
    occurrence being replaced that are still to be dropped. *)
Fixpoint replace_from (old new s : string) (skip : nat) : string :=
  match s with
  | EmptyString => EmptyString
  | String c s' =>
      match skip with
      | S k => replace_from old new s' k
      | O =>
          if starts_with old s
          then new +:+ replace_from old new s' (String.length old - 1)%nat
          else String c (replace_from old new s' 0%nat)
      end
  end.

Definition py_replace (old new s : string) : string := replace_from old new s 0%nat.

(** A byte that continues a UTF-8 encoded code point (10xxxxxx). *)
Definition is_continuation (c : ascii) : bool :=
  match c with
  | Ascii.Ascii _ _ _ _ _ _ false true => true
  | _ => false
  end.

Fixpoint drop_continuation (s : string) : string * string :=
  match s with
  | String c s' =>
      if is_continuation c
      then let '(h, t) := drop_continuation s' in (String c h, t)
      else (EmptyString, s)
  | EmptyString => (EmptyString, EmptyString)
  end.

(** [s[:n]]: the first [n] code points of a UTF-8 encoded text. *)
Fixpoint py_prefix_go (fuel n : nat) (s : string) : string :=
  match fuel, n, s with
  | S f, S k, String c s' =>
      let '(h, t) := drop_continuation s' in
      String c h +:+ py_prefix_go f k t
  | _, _, _ => EmptyString
  end.

Definition py_prefix (n : nat) (s : string) : string :=
  py_prefix_go (String.length s) n s.

(** ** Values: [str], truthiness, [.get], subscripting *)

(** Library functions the scripts call that are not part of the
    repository: [json.loads] (an error message stands for a raised
    [JSONDecodeError]), [repr] of floats and containers, and
    [str.strip]. *)
Class Runtime := {
  json_loads : string → string + pyval;
  py_repr : pyval → string;
  py_strip : string → string
}.

(** The external system behind [subprocess.run]: given its state and an
    invocation it produces the completed process and its next state. *)
Class External := {
  ext : Type;
  gh : ext → invocation → CompletedProcess * ext
}.

(** [subprocess.run] itself can raise instead of returning: [OSError]
    when the [gh] program cannot be started, [UnicodeDecodeError] when
    its output is not valid text ([text=True]), [ValueError] for an
    argument with a NUL character.  [fault e inv] says whether the call
    [inv] made in state [e] ends so, with which exception, and in which
    state it leaves the external system. *)
Class Faults `{External} := {
  fault : ext → invocation → option (exn * ext)
}.

(** The runs in which every call of [subprocess.run] returns a completed
    process.  A statement that does not bind a [Faults] of its own is
    about these runs. *)
#[export] Instance no_faults `{External} : Faults | 100 := {| fault := λ _ _, None |}.

Definition py_str `{Runtime} (v : pyval) : string :=
  match v with
  | PyNone => "None"
  | PyBool true => "True"
  | PyBool false => "False"
  | PyInt n => pretty n
  | PyStr s => s
  | PyFloat _ _ | PyList _ | PyDict _ => py_repr v
  end.

Definition truthy (v : pyval) : bool :=
  match v with
  | PyNone => false
  | PyBool b => b
  | PyInt n => negb (Z.eqb n 0)
  | PyFloat z _ => negb z
  | PyStr s => negb (String.eqb s "")
  | PyList l => match l with [] => false | _ => true end
  | PyDict kv => match kv with [] => false | _ => true end
  end.

Definition type_name (v : pyval) : string :=
  match v with
  | PyNone => "NoneType"
  | PyBool _ => "bool"
  | PyInt _ => "int"
  | PyFloat _ _ => "float"
  | PyStr _ => "str"
  | PyList _ => "list"
  | PyDict _ => "dict"
  end.

(** A parsed JSON object keeps its members in source order; a repeated
    name takes its last value, as [json.loads] does. *)
Fixpoint assoc_last (k : string) (kv : list (string * pyval)) : option pyval :=
  match kv with
  | [] => None
  | (k', v) :: rest =>
      match assoc_last k rest with
      | Some v' => Some v'
      | None => if String.eqb k k' then Some v else None
      end
  end.

(** ** The world and the monad *)

Record world `{External} := World {
  external : ext;
  printed : list string;
  calls : list invocation
}.

Definition M `{External} (A : Type) : Type := world → outcome A * world.

#[export] Instance M_ret `{External} : MRet M := λ A a w, (Return a, w).
#[export] Instance M_bind `{External} : MBind M := λ A B f m w,
  match m w with
  | (Return a, w') => f a w'
  | (Raise e, w') => (Raise e, w')
  end.

Definition raise `{External} {A} (k : exn_kind) (msg : string) : M A :=
  λ w, (Raise (Exn k msg), w).

Definition try_except `{External} {A} (body : M A) (handler : exn → M A) : M A :=
  λ w, match body w with
       | (Return a, w') => (Return a, w')
       | (Raise e, w') => handler e w'
       end.

Definition print `{External} (s : string) : M unit :=
  λ w, (Return (), World _ (external w) (printed w ++ [s]) (calls w)).

(** [calls] records every invocation handed to [subprocess.run], also
    one on which [subprocess.run] raises. *)
Definition subprocess_run `{External} `{!Faults} (args : list string) (stdin : option string)
  : M CompletedProcess :=
  λ w, let inv := {| argv := args; input := stdin |} in
       match fault (external w) inv with
       | Some (e, e') => (Raise e, World _ e' (printed w) (calls w ++ [inv]))
       | None =>
           let '(r, e') := gh (external w) inv in
           (Return r, World _ e' (printed w) (calls w ++ [inv]))
       end.

Fixpoint for_each `{External} {A} (l : list A) (body : A → M unit) : M unit :=
  match l with
  | [] => mret ()
  | x :: rest => body x;; for_each rest body
  end.

Definition loads `{Runtime} `{External} (s : string) : M pyval :=
  match json_loads s with
  | inr v => mret v
  | inl msg => raise JSONDecodeError msg
  end.

(** [d.get(key, default)] and [d.get(key)]. *)
Definition get_default `{External} (d : pyval) (key : string) (default : pyval) : M pyval :=
  match d with
  | PyDict kv =>
      mret (match assoc_last key kv with Some v => v | None => default end)
  | _ => raise AttributeError (SQ +:+ type_name d +:+ "' object has no attribute 'get'")
  end.

Definition get `{External} (d : pyval) (key : string) : M pyval :=
  get_default d key PyNone.

(** [d[key]] with a string key. *)
Definition getitem `{External} (d : pyval) (key : string) : M pyval :=
  match d with
  | PyDict kv =>
      match assoc_last key kv with
      | Some v => mret v
      | None => raise KeyError (SQ +:+ key +:+ SQ)
      end
  | PyStr _ => raise TypeError "string indices must be integers, not 'str'"
  | PyList _ => raise TypeError "list indices must be integers or slices, not str"
  | _ => raise TypeError (SQ +:+ type_name d +:+ "' object is not subscriptable")
  end.

Definition py_lines (l : list string) : string := py_join LF l.

(** [if not v] on an [Optional[str]]. *)
Definition nonempty (o : option string) : option string :=
  match o with
  | Some s => if String.eqb s "" then None else Some s
  | None => None
  end.

Definition initial `{External} (e : ext) : world := World _ e [] [].

(** The state of the external system after it has answered [invs]. *)
Definition after `{External} (e : ext) (invs : list invocation) : ext :=
  foldl (λ e inv, (gh e inv).2) e invs.

(** ** scripts/create_milestones_and_issues.py *)

Module CreateMilestonesAndIssues.

(** The string constants bound at module level.  The functions look
    their free names up here, as Python does at run time. *)
Definition module_globals : gmap string string :=
  <["REPO_OWNER" := "goblinsan"]> (<["REPO_NAME" := "visual-flow"]> ∅).

Record issue := { title : string; body : string }.

Record phase := {
  description : string;
  duration : string;
  issues : list issue
}.

Section WithGlobals.
Context `{Runtime} `{External} `{!Faults}.
Variable G : gmap string string.

Definition load_global (name : string) : M string :=
  match G !! name with
  | Some v => mret v
  | None => raise NameError ("name '" +:+ name +:+ "' is not defined")
  end.

Definition run_gh_command (cmd : list string) : M (option string) :=
  try_except
    (result ← subprocess_run ("gh" :: cmd) None;
     if negb (Z.eqb (returncode result) 0)
     then
       print ("Error running command: " +:+ py_join " " cmd);;
       print ("stderr: " +:+ stderr result);;
       mret None
     else mret (Some (py_strip (stdout result))))
    (λ e,
       print ("Exception running command: " +:+ message e);;
       mret None).

Definition create_milestone (title description duration : string) : M pyval :=
  print ("📌 Creating milestone: " +:+ title);;
  REPO ← load_global "REPO";
  output ← run_gh_command
    [ "milestone"; "create"; "--repo"; REPO; "--title"; title;
      "--description";
      description +:+ LF +:+ LF +:+ "Estimated Duration: " +:+ duration ];
  match nonempty output with
  | Some output =>
      try_except
        (result ← loads output;
         milestone_num ← get result "number";
         print ("✅ Created milestone #" +:+ py_str milestone_num +:+ ": " +:+ title);;
         mret milestone_num)
        (λ _,
           print ("⚠️  Could not parse milestone response: " +:+ output);;
           mret PyNone)
  | None => mret PyNone
  end.

Definition epic_body (milestone_num : pyval) (issue_number : string) : string :=
  py_lines
    [ "## Epic Overview";
      "";
      "This Epic is part of Milestone: " +:+ py_str milestone_num;
      "";
      "## Goals";
      "";
      "- [ ] Implement all related issues";
      "- [ ] All related Issues are resolved";
      "- [ ] Tests pass";
      "- [ ] Documentation updated";
      "";
      "## Acceptance Criteria";
      "";
      "- [ ] All planned tasks completed";
      "- [ ] Tests pass";
      "- [ ] Documentation updated";
      "";
      "---";
      "";
      "**To link issues to this Epic:**";
      "Add a comment on the Issue with: `Part of #" +:+ issue_number +:+ "`";
      "Or reference in issue body: `Relates to #" +:+ issue_number +:+ "`";
      "" ].

Definition create_epic (milestone_num : pyval) (title : string) : M pyval :=
  print ("  📋 Creating epic: " +:+ title);;
  issue_number ← load_global "issue_number";
  let body := epic_body milestone_num issue_number in
  REPO ← load_global "REPO";
  output ← run_gh_command
    [ "issue"; "create"; "--repo"; REPO;
      "--title"; "[" +:+ py_str milestone_num +:+ "] Epic: " +:+ title;
      "--body"; body;
      "--label"; "Epic";
      "--milestone"; py_str milestone_num ];
  match nonempty output with
  | Some output =>
      try_except
        (result ← loads output;
         epic_num ← get result "number";
         print ("✅ Created epic #" +:+ py_str epic_num +:+ ": " +:+ title);;
         mret epic_num)
        (λ _,
           print ("⚠️  Could not parse epic response: " +:+ output);;
           mret PyNone)
  | None => mret PyNone
  end.

(** The body [create_issue] sends: the catalog body followed by the
    reference to the epic. *)
Definition full_body (body : string) (epic_num : pyval) : string :=
  body +:+ LF +:+ LF +:+ "---" +:+ LF +:+ LF +:+ "Part of Epic #" +:+ py_str epic_num.

Definition create_issue (milestone_num epic_num : pyval) (title body : string) : M pyval :=
  let full_body := full_body body epic_num in
  REPO ← load_global "REPO";
  output ← run_gh_command
    [ "issue"; "create"; "--repo"; REPO;
      "--title"; title;
      "--body"; full_body;
      "--milestone"; py_str milestone_num ];
  match nonempty output with
  | Some output =>
      try_except
        (result ← loads output;
         issue_num ← get result "number";
         print ("✅ Created issue #" +:+ py_str issue_num +:+ ": " +:+ title);;
         mret issue_num)
        (λ _,
           print ("⚠️  Could not parse issue response: " +:+ output);;
           mret PyNone)
  | None => mret PyNone
  end.

(** The invocation [create_issue] makes once [REPO] is looked up. *)
Definition issue_call (REPO : string) (milestone_num epic_num : pyval)
    (title body : string) : invocation :=
  {| argv := [ "gh"; "issue"; "create"; "--repo"; REPO;
               "--title"; title;
               "--body"; full_body body epic_num;
               "--milestone"; py_str milestone_num ];
     input := None |}.

(** One iteration of the loop of [main]; [continue] ends it early. *)
Definition process_phase (entry : string * phase) : M unit :=
  let '(phase_name, phase_data) := entry in
  print (LF +:+ phase_name);;
  print (py_mul "-" 60);;
  milestone_num ← create_milestone phase_name (description phase_data)
                    (duration phase_data);
  if negb (truthy milestone_num)
  then print ("❌ Failed to create milestone for " +:+ phase_name)
  else
    epic_num ← create_epic milestone_num
                 (py_replace "Phase " "" (py_replace "Phase X: " "" phase_name));
    if negb (truthy epic_num)
    then print ("❌ Failed to create epic for " +:+ phase_name)
    else
      for_each (issues phase_data) (λ issue,
        issue_num ← create_issue milestone_num epic_num (title issue) (body issue);
        if negb (truthy issue_num)
        then print ("⚠️  Failed to create issue: " +:+ title issue)
        else mret ()).

Definition main (PHASES : list (string * phase)) : M unit :=
  print "🚀 Creating GitHub Milestones, Epics, and Issues";;
  print (py_mul "=" 60);;
  for_each PHASES process_phase;;
  print (LF +:+ py_mul "=" 60);;
  print "✨ Done! All milestones, epics, and issues created.";;
  print "📊 Visit the Issues tab to see your roadmap!".

End WithGlobals.

End CreateMilestonesAndIssues.

(** A loop that updates a local variable on each iteration. *)
Fixpoint fold_each `{External} {A S} (l : list A) (s : S) (body : S → A → M S) : M S :=
  match l with
  | [] => mret s
  | x :: rest => s' ← body s x; fold_each rest s' body
  end.

(** The id map shared by the three linking scripts: parent epic to
    child issues, in the order of the dictionary literal. *)
Definition phase_map : list (Z * list Z) :=
  [ (45, [12; 13; 14; 15]);
    (46, [16; 17; 18; 19; 20]);
    (47, [21; 22; 23; 24; 25]);
    (48, [26; 27; 28; 29]);
    (49, [30; 31; 32; 33; 34]);
    (50, [35; 36; 37; 38]) ].

(** ** scripts/link_issues_graphql.py *)

Module LinkIssuesGraphql.

Definition REPO : string := "goblinsan/vizail".

Definition id_query (issue_num : Z) : string :=
  py_lines
    [ "";
      "    query {";
      "    repository(owner: " +:+ DQ +:+ "goblinsan" +:+ DQ +:+ ", name: "
        +:+ DQ +:+ "vizail" +:+ DQ +:+ ") {";
      "        issue(number: " +:+ pretty issue_num +:+ ") {";
      "          id";
      "        }";
      "      }";
      "    }";
      "    " ].

Definition mutation : string :=
  py_lines
    [ "";
      "        mutation AddSubIssue($issueId: ID!, $subIssueId: ID!, $replaceParent: Boolean) {";
      "            addSubIssue(input: {issueId: $issueId, subIssueId: $subIssueId, replaceParent: $replaceParent}) {";
      "                subIssue {";
      "                    id";
      "                    number: number";
      "                    parent { number }";
      "                }";
      "            }";
      "        }";
      "        " ].

(** The invocation [get_issue_id] makes for an issue number. *)
Definition id_call (issue_num : Z) : invocation :=
  {| argv := ["gh"; "api"; "graphql"; "-f"; "query=" +:+ id_query issue_num];
     input := None |}.

(** An id table that holds no id. *)
Definition unresolved (issue_ids : gmap Z pyval) : Prop :=
  ∀ k v, issue_ids !! k = Some v → v = PyNone.

Definition is_id_call (inv : invocation) : Prop := ∃ n, inv = id_call n.

Section Script.
Context `{Runtime} `{External} `{!Faults}.

Definition get_issue_id (issue_num : Z) : M pyval :=
  let query := id_query issue_num in
  result ← subprocess_run ["gh"; "api"; "graphql"; "-f"; "query=" +:+ query] None;
  if Z.eqb (returncode result) 0
  then
    data ← loads (stdout result);
    d ← getitem data "data";
    r ← getitem d "repository";
    i ← getitem r "issue";
    getitem i "id"
  else mret PyNone.

(** The invocation [link_sub_issue] makes. *)
Definition link_call (parent_id sub_issue_id : pyval) : invocation :=
  {| argv := [ "gh"; "api"; "graphql";
               "-f"; "query=" +:+ mutation;
               "-f"; "issueId=" +:+ py_str parent_id;
               "-f"; "subIssueId=" +:+ py_str sub_issue_id;
               "-F"; "replaceParent=true" ];
     input := None |}.

Definition link_sub_issue (parent_id sub_issue_id : pyval) : M (bool * string) :=
  result ← subprocess_run
    [ "gh"; "api"; "graphql";
      "-f"; "query=" +:+ mutation;
      "-f"; "issueId=" +:+ py_str parent_id;
      "-f"; "subIssueId=" +:+ py_str sub_issue_id;
      "-F"; "replaceParent=true" ] None;
  mret (Z.eqb (returncode result) 0, stderr result).

(** [issue_ids.get(k)] on the local dictionary. *)
Definition ids_get (issue_ids : gmap Z pyval) (k : Z) : pyval :=
  default PyNone (issue_ids !! k).

Definition fetch_parents (pm : list (Z * list Z)) (issue_ids : gmap Z pyval)
  : M (gmap Z pyval) :=
  fold_each (pm.*1) issue_ids (λ issue_ids epic_num,
    id ← get_issue_id epic_num;
    let issue_ids := <[epic_num := id]> issue_ids in
    print ("  Epic #" +:+ pretty epic_num +:+ ": " +:+ py_str (ids_get issue_ids epic_num));;
    mret issue_ids).

Definition fetch_children (pm : list (Z * list Z)) (issue_ids : gmap Z pyval)
  : M (gmap Z pyval) :=
  fold_each (pm.*2) issue_ids (λ issue_ids child_nums,
    fold_each child_nums issue_ids (λ issue_ids child_num,
      match issue_ids !! child_num with
      | None => id ← get_issue_id child_num; mret (<[child_num := id]> issue_ids)
      | Some _ => mret issue_ids
      end)).

Definition link_children (issue_ids : gmap Z pyval) (epic_num : Z)
    (parent_id : pyval) (child_issues : list Z) : M unit :=
  for_each child_issues (λ child_num,
    let child_id := ids_get issue_ids child_num in
    if negb (truthy child_id)
    then print ("  ❌ Could not get ID for issue #" +:+ pretty child_num)
    else
      '(success, err) ← link_sub_issue parent_id child_id;
      if success : bool
      then print ("  ✅ Linked #" +:+ pretty child_num +:+ " → #" +:+ pretty epic_num)
      else print ("  ❌ ERROR linking #" +:+ pretty child_num +:+ ": "
                    +:+ py_prefix 100 err)).

Definition link_all (pm : list (Z * list Z)) (issue_ids : gmap Z pyval) : M unit :=
  for_each pm (λ '(epic_num, child_issues),
    let parent_id := ids_get issue_ids epic_num in
    if negb (truthy parent_id)
    then print ("❌ Could not get ID for epic #" +:+ pretty epic_num)
    else
      print ("Linking to epic #" +:+ pretty epic_num +:+ "...");;
      link_children issue_ids epic_num parent_id child_issues).

Definition summary : string := LF +:+ "✅ All child issues linked to parent epics!".

(** The module body, over the id map [pm] ([phase_map] in the script). *)
Definition script (pm : list (Z * list Z)) : M unit :=
  print ("Fetching issue IDs..." +:+ LF);;
  issue_ids ← fetch_parents pm ∅;
  issue_ids ← fetch_children pm issue_ids;
  print (LF +:+ "Linking " +:+ pretty (Z.of_nat (length (concat (pm.*2))))
           +:+ " child issues to parent epics..." +:+ LF);;
  link_all pm issue_ids;;
  print summary.

End Script.

End LinkIssuesGraphql.

(** ** scripts/link_child_to_parent.py *)

Module LinkChildToParent.

Definition header (parent_epic : Z) : string :=
  "**Parent Epic:** #" +:+ pretty parent_epic +:+ LF +:+ LF.

(** The invocations of the script: reading a body, and writing one. *)
Definition view_call (issue_num : Z) : invocation :=
  {| argv := ["gh"; "issue"; "view"; pretty issue_num; "--json"; "body"];
     input := None |}.

Definition edit_call (issue_num : Z) (new_body : string) : invocation :=
  {| argv := ["gh"; "issue"; "edit"; pretty issue_num; "-b"; "-"];
     input := Some new_body |}.

Section Script.
Context `{Runtime} `{External} `{!Faults}.

Definition get_issue_body (issue_num : Z) : M pyval :=
  result ← subprocess_run
    ["gh"; "issue"; "view"; pretty issue_num; "--json"; "body"] None;
  if Z.eqb (returncode result) 0
  then
    data ← loads (stdout result);
    get_default data "body" (PyStr "")
  else mret (PyStr "").

Definition update_issue_body (issue_num parent_epic : Z) (body : pyval) : M unit :=
  let new_body := header parent_epic +:+ py_str body in
  result ← subprocess_run
    ["gh"; "issue"; "edit"; pretty issue_num; "-b"; "-"] (Some new_body);
  if Z.eqb (returncode result) 0
  then print ("  Updated #" +:+ pretty issue_num)
  else print ("  ERROR updating #" +:+ pretty issue_num +:+ ": " +:+ stderr result).

(** What the loop does for one child issue. *)
Definition link_child (epic_num issue_num : Z) : M unit :=
  body ← get_issue_body issue_num;
  update_issue_body issue_num epic_num body.

Definition summary : string := LF +:+ "✅ All child issues linked to parent epics!".

Definition script (pm : list (Z * list Z)) : M unit :=
  for_each pm (λ '(epic_num, child_issues),
    print ("Linking child issues to epic #" +:+ pretty epic_num +:+ "...");;
    for_each child_issues (link_child epic_num));;
  print summary.

End Script.

End LinkChildToParent.

(** ** scripts/link_issues_hierarchy.py *)

Module LinkIssuesHierarchy.

Section Script.
Context `{Runtime} `{External} `{!Faults}.

(** The invocation that makes [child_num] a child of [epic_num]. *)
Definition patch_call (epic_num child_num : Z) : invocation :=
  {| argv := [ "gh"; "api";
               "/repos/goblinsan/visual-flow/issues/" +:+ pretty child_num;
               "--method"; "PATCH";
               "-f"; "parent_issue_url="
                       +:+ ("https://api.github.com/repos/goblinsan/visual-flow/issues/"
                              +:+ pretty epic_num) ];
     input := None |}.

Definition link_child (epic_num : Z) (parent_url : string) (child_num : Z) : M unit :=
  result ← subprocess_run
    [ "gh"; "api";
      "/repos/goblinsan/visual-flow/issues/" +:+ pretty child_num;
      "--method"; "PATCH";
      "-f"; "parent_issue_url=" +:+ parent_url ] None;
  if Z.eqb (returncode result) 0
  then print ("  ✅ Linked #" +:+ pretty child_num +:+ " → #" +:+ pretty epic_num)
  else print ("  ❌ ERROR linking #" +:+ pretty child_num +:+ ": "
                +:+ py_prefix 100 (stderr result)).

Definition summary : string := LF +:+ "✅ All child issues linked to parent epics!".

Definition script (pm : list (Z * list Z)) : M unit :=
  print ("Linking child issues to parent epics via PATCH..." +:+ LF);;
  for_each pm (λ '(epic_num, child_issues),
    print ("Linking to epic #" +:+ pretty epic_num +:+ "...");;
    let parent_url :=
      "https://api.github.com/repos/goblinsan/visual-flow/issues/" +:+ pretty epic_num in
    for_each child_issues (link_child epic_num parent_url));;
  print summary.

End Script.

End LinkIssuesHierarchy.

(** ** scripts/create_epics.py *)

Module CreateEpics.

Definition REPO : string := "goblinsan/vizail".

Section Script.
Context `{Runtime} `{External} `{!Faults}.

Definition add_label (num : pyval) (label : string) : M unit :=
  subprocess_run ["gh"; "issue"; "edit"; py_str num; "--add-label"; label] None;;
  mret ().

Definition create_epic (title body : string) (labels : list string) : M pyval :=
  result ← subprocess_run
    [ "gh"; "api"; "-X"; "POST"; "/repos/" +:+ REPO +:+ "/issues";
      "-f"; "title=" +:+ title;
      "-f"; "body=" +:+ body ] None;
  if negb (Z.eqb (returncode result) 0)
  then
    print ("  ❌ " +:+ title +:+ ": " +:+ py_prefix 80 (stderr result));;
    mret PyNone
  else
    try_except
      (data ← loads (stdout result);
       num ← get data "number";
       print ("  ✅ Epic #" +:+ py_str num +:+ ": " +:+ py_prefix 40 title);;
       for_each labels (add_label num);;
       mret num)
      (λ e,
         print ("  ❌ Parse error: " +:+ message e);;
         mret PyNone).

(** The invocations [create_epic] makes: the creation call and the
    call that adds one label. *)
Definition create_call (title body : string) : invocation :=
  {| argv := [ "gh"; "api"; "-X"; "POST"; "/repos/" +:+ REPO +:+ "/issues";
               "-f"; "title=" +:+ title;
               "-f"; "body=" +:+ body ];
     input := None |}.

Definition label_call (num : pyval) (label : string) : invocation :=
  {| argv := ["gh"; "issue"; "edit"; py_str num; "--add-label"; label];
     input := None |}.

(** The module body.  [epics] lists the arguments of the calls that
    build the [epics] dictionary, in the order they are written. *)
Definition script (epics : list (string * string * list string)) : M unit :=
  print ("Creating Epic Issues..." +:+ LF);;
  for_each epics (λ '(title, body, labels), create_epic title body labels;; mret ());;
  print (LF +:+ py_mul "=" 60);;
  print "✅ Epic issues created!";;
  print (py_mul "=" 60);;
  print (LF +:+ "Dependency chain:");;
  print "  Phase 0 (epic) → Phase 1 (epic) → Phase 2 (epic) → Phase 3 (epic) → Phase 4 (epic)";;
  print "                                      ↓";;
  print "                              Phase 5 (epic) [parallel]";;
  print (LF +:+ "Visit: https://github.com/" +:+ REPO +:+ "/issues").

End Script.

End CreateEpics.

(** ** scripts/create_github_issues.py *)

Module CreateGithubIssues.

Definition REPO : string := "goblinsan/visual-flow".

(** One block of the module body: the banner, the milestone to look
    up, and the issues created under it. *)
Record block := {
  banner : string;
  milestone_title : string;
  milestone_description : string;
  block_issues : list (string * string * list string)
}.

Definition blocks : list block :=
  [ {| banner := "=== PHASE 0: Prep & Hardening ===";
       milestone_title := "Phase 0: Prep & Hardening";
       milestone_description := "Stabilize codebase, improve type safety, add telemetry, prepare for cloud migration.";
       block_issues :=
         [ ("Complete Command Pattern Integration", "Audit all setSpec calls in CanvasStage.tsx and route through command system.", ["enhancement"; "tech-debt"; "priority-high"]);
           ("Add Schema Versioning & Migration", "Add version field to LayoutSpec and create migration infrastructure for future schema changes.", ["enhancement"; "data-integrity"]);
           ("Add Error Boundary & Telemetry", "Add error boundary around canvas and basic telemetry hook for observability.", ["enhancement"; "reliability"]);
           ("Lint & Type Safety Pass", "Eliminate remaining any types and improve type safety across the codebase.", ["tech-debt"; "types"]) ] |};
    {| banner := "=== PHASE 1: Cloud Persistence + Sharing ===";
       milestone_title := "Phase 1: Cloud Persistence + Sharing";
       milestone_description := "Replace localStorage with cloud storage, enable canvas sharing with basic roles.";
       block_issues :=
         [ ("Set Up Cloudflare Infrastructure", "Initialize Cloudflare Pages and Workers infrastructure for cloud deployment.", ["infrastructure"; "priority-high"]);
           ("Implement Canvas CRUD API", "Build REST API endpoints for canvas management (create, read, update, delete).", ["api"; "priority-high"]);
           ("Create useCloudPersistence Hook", "Build drop-in replacement for useDesignPersistence that syncs with cloud backend.", ["frontend"; "priority-high"]);
           ("Implement Sharing & Memberships", "Add ability to share canvases with other users with role-based access control.", ["api"; "frontend"]);
           ("Add Cloudflare Access Integration", "Implement authentication via Cloudflare Access for Phase 1 (friends-only mode).", ["auth"; "infrastructure"]) ] |};
    {| banner := "=== PHASE 2: Real-Time Collaboration MVP ===";
       milestone_title := "Phase 2: Real-Time Collaboration MVP";
       milestone_description := "Multiple users editing same canvas simultaneously with presence indicators.";
       block_issues :=
         [ ("Set Up Yjs + Durable Objects", "Initialize Yjs CRDT library and create Durable Object infrastructure for realtime rooms.", ["infrastructure"; "realtime"; "priority-high"]);
           ("Create Yjs-LayoutSpec Conversion Layer", "Build conversion functions between LayoutSpec and Yjs document structures.", ["realtime"; "data"]);
           ("Build useRealtimeCanvas Hook", "Create React hook for managing realtime canvas connections and state sync.", ["frontend"; "realtime"]);
           ("Implement Presence UI", "Build visual indicators showing other users' cursors and selections.", ["frontend"; "realtime"]);
           ("Add Connection Status Indicator", "Display connection status and sync indicators to users.", ["frontend"; "ux"]) ] |};
    {| banner := "=== PHASE 3: Real-Time Polish ===";
       milestone_title := "Phase 3: Real-Time Polish";
       milestone_description := "Production-quality collaboration with soft locks, conflict UI, and checkpoints.";
       block_issues :=
         [ ("Implement Soft Locks", "Add soft lock system to prevent conflicts during drag/resize operations.", ["realtime"; "ux"]);
           ("Add Conflict Notifications", "Show non-blocking notifications when remote changes affect selected nodes.", ["realtime"; "ux"]);
           ("Implement Checkpoint System", "Add ability to create and restore snapshots of canvas state.", ["api"; "data-integrity"]);
           ("Real-Time Performance Optimization", "Optimize performance for multi-user editing scenarios.", ["performance"; "realtime"]) ] |};
    {| banner := "=== PHASE 4: Agent Branches + Proposals ===";
       milestone_title := "Phase 4: Agent Branches + Proposals";
       milestone_description := "AI agents can create branches, make changes, and submit proposals for human review.";
       block_issues :=
         [ ("Implement Agent Branch System", "Enable agents to fork canvases into isolated branches for experimentation.", ["api"; "agents"]);
           ("Build Proposal Submission Flow", "Allow agents to submit proposals for merging changes back to main canvas.", ["api"; "agents"]);
           ("Create Proposal Review UI", "Build interface for reviewing and managing agent proposals.", ["frontend"; "agents"]);
           ("Add Design Rationale Layer", "Store and display AI reasoning for proposed changes.", ["frontend"; "agents"]);
           ("Agent Token Management", "Implement secure token generation for agent authentication.", ["auth"; "agents"]) ] |};
    {| banner := "=== PHASE 5: Export Pipeline ===";
       milestone_title := "Phase 5: Export Pipeline";
       milestone_description := "Export designs to usable formats for building real applications.";
       block_issues :=
         [ ("Implement JSON Canonical Export", "Create stable JSON export format for LayoutSpec designs.", ["export"; "api"]);
           ("Build React + Tailwind Exporter", "Generate runnable React components with Tailwind CSS from designs.", ["export"; "api"]);
           ("Create Design Tokens Extractor", "Extract design system tokens from designs.", ["export"; "api"]);
           ("Build Export Dialog UI", "Create user interface for exporting designs.", ["frontend"; "export"]) ] |} ].

(** The code points of a text, each as a string of its UTF-8 bytes. *)
Fixpoint code_points_go (fuel : nat) (s : string) : list string :=
  match fuel, s with
  | S f, String c s' =>
      let '(h, t) := drop_continuation s' in
      String c h :: code_points_go f t
  | _, _ => []
  end.

Definition code_points (s : string) : list string :=
  code_points_go (String.length s) s.

(** The names of a parsed object in the order a Python dictionary
    iterates over them: by first occurrence. *)
Fixpoint dict_keys (seen : list string) (kv : list (string * pyval)) : list string :=
  match kv with
  | [] => []
  | (k, _) :: rest =>
      if bool_decide (k ∈ seen) then dict_keys seen rest
      else k :: dict_keys (k :: seen) rest
  end.

Section Script.
Context `{Runtime} `{External} `{!Faults}.

(** The entries of a milestone listing that [find_milestone] passes
    over: objects whose title is not the one looked for. *)
Definition other_milestone (title : string) (m : pyval) : Prop :=
  ∃ kv, m = PyDict kv ∧ assoc_last "title" kv ≠ Some (PyStr title).

(** The two invocations [create_milestone] makes: both list the
    milestones of the repository. *)
Definition filtered_list_call : invocation :=
  {| argv := [ "gh"; "api"; "/repos/" +:+ REPO +:+ "/milestones";
               "-q"; ".[].number"; "-q"; ".[].title" ];
     input := None |}.

Definition list_call : invocation :=
  {| argv := ["gh"; "api"; "/repos/" +:+ REPO +:+ "/milestones"]; input := None |}.


Definition run_gh (args : list string) : M (string * string * Z) :=
  result ← subprocess_run ("gh" :: args) None;
  mret (py_strip (stdout result), py_strip (stderr result), returncode result).

(** [for m in v]: the items the loop visits. *)
Definition py_iter (v : pyval) : M (list pyval) :=
  match v with
  | PyList l => mret l
  | PyDict kv => mret (PyStr <$> dict_keys [] kv)
  | PyStr s => mret (PyStr <$> code_points s)
  | _ => raise TypeError (SQ +:+ type_name v +:+ "' object is not iterable")
  end.

(** The search loop of [create_milestone]; [Some n] is [return n]. *)
Fixpoint find_milestone (title : string) (milestones : list pyval) : M (option pyval) :=
  match milestones with
  | [] => mret None
  | m :: rest =>
      t ← get m "title";
      match t with
      | PyStr s =>
          if String.eqb s title
          then
            n ← getitem m "number";
            print ("📌 Using existing milestone: " +:+ title +:+ " (#" +:+ py_str n +:+ ")");;
            n' ← getitem m "number";
            mret (Some n')
          else find_milestone title rest
      | _ => find_milestone title rest
      end
  end.

Definition create_milestone (title description : string) : M pyval :=
  run_gh ["api"; "/repos/" +:+ REPO +:+ "/milestones";
          "-q"; ".[].number"; "-q"; ".[].title"];;
  '(milestones_out, _, _) ← run_gh ["api"; "/repos/" +:+ REPO +:+ "/milestones"];
  found ← try_except
            (milestones ← loads milestones_out;
             items ← py_iter milestones;
             find_milestone title items)
            (λ _, mret None);
  mret (default PyNone found).

Definition add_label (num : pyval) (label : string) : M unit :=
  run_gh ["issue"; "edit"; py_str num; "--add-label"; label];;
  mret ().

Definition create_issue (title body : string) (milestone_num : pyval)
    (labels : list string) : M pyval :=
  print ("    📋 Creating issue: " +:+ py_prefix 50 title +:+ "...");;
  let cmd := [ "api"; "-X"; "POST"; "/repos/" +:+ REPO +:+ "/issues";
               "-f"; "title=" +:+ title;
               "-f"; "body=" +:+ body ] in
  let cmd := if truthy milestone_num
             then (cmd ++ ["-f"; "milestone=" +:+ py_str milestone_num])%list
             else cmd in
  '(stdout, stderr, code) ← run_gh cmd;
  if negb (Z.eqb code 0)
  then
    print ("    Error: " +:+ py_prefix 80 stderr);;
    mret PyNone
  else
    try_except
      (data ← loads stdout;
       num ← get data "number";
       print ("    ✅ Issue #" +:+ py_str num);;
       for_each labels (add_label num);;
       mret num)
      (λ _, mret PyNone).

(** The invocations [create_issue] makes: the creation call and the
    call that adds one label. *)
Definition create_call (title body : string) (milestone_num : pyval) : invocation :=
  {| argv :=
       "gh" ::
       [ "api"; "-X"; "POST"; "/repos/" +:+ REPO +:+ "/issues";
         "-f"; "title=" +:+ title;
         "-f"; "body=" +:+ body ]
       ++ (if truthy milestone_num
           then ["-f"; "milestone=" +:+ py_str milestone_num]
           else []);
     input := None |}.

Definition label_call (num : pyval) (label : string) : invocation :=
  {| argv := ["gh"; "issue"; "edit"; py_str num; "--add-label"; label];
     input := None |}.

Definition run_block (b : block) : M unit :=
  print (LF +:+ banner b);;
  m ← create_milestone (milestone_title b) (milestone_description b);
  if truthy m
  then for_each (block_issues b) (λ '(title, body, labels),
         create_issue title body m labels;; mret ())
  else mret ().

Definition script (bs : list block) : M unit :=
  for_each bs run_block;;
  print (LF +:+ py_mul "=" 60);;
  print "✨ Done! All milestones and issues created.";;
  print "📊 Visit: https://github.com/goblinsan/visual-flow/issues".

End Script.

End CreateGithubIssues.

(** ** scripts/populate_issue_descriptions.py *)

Module PopulateIssueDescriptions.

Definition REPO : string := "goblinsan/vizail".

Section Script.
Context `{Runtime} `{External} `{!Faults}.

(** The invocation [update_issue_body] makes. *)
Definition patch_call (issue_num : Z) (body : string) : invocation :=
  {| argv := [ "gh"; "api";
               "/repos/" +:+ REPO +:+ "/issues/" +:+ pretty issue_num;
               "-X"; "PATCH";
               "-f"; "body=" +:+ body ];
     input := None |}.

Definition update_issue_body (issue_num : Z) (body : string) : M bool :=
  result ← subprocess_run
    [ "gh"; "api";
      "/repos/" +:+ REPO +:+ "/issues/" +:+ pretty issue_num;
      "-X"; "PATCH";
      "-f"; "body=" +:+ body ] None;
  if Z.eqb (returncode result) 0
  then print ("✅ Updated #" +:+ pretty issue_num);; mret true
  else print ("❌ Error updating #" +:+ pretty issue_num +:+ ": "
                +:+ py_prefix 100 (stderr result));;
       mret false.

(** The module body, over the dictionary [ISSUE_DETAILS] of issue
    number to description; it is walked in ascending key order. *)
Definition script (ISSUE_DETAILS : gmap Z string) : M unit :=
  print ("Populating issues with detailed descriptions..." +:+ LF);;
  for_each (merge_sort Z.le (map_to_list ISSUE_DETAILS).*1) (λ issue_num,
    match ISSUE_DETAILS !! issue_num with
    | Some body => update_issue_body issue_num body;; mret ()
    | None => raise KeyError (pretty issue_num)
    end);;
  print (LF +:+ "✅ All issues populated with descriptions!").

End Script.

End PopulateIssueDescriptions.

(** ** The external tracker *)

Module Tracker.

(** What the tracker holds that the linking passes change: the body
    of each issue (by the number the client is given) and the parent
    of each issue (by global identifier). *)
Record state := State {
  bodies : gmap string string;
  parent : gmap string string
}.

Fixpoint strip_prefix (p s : string) : option string :=
  match p, s with
  | EmptyString, _ => Some s
  | String a p', String b s' => if Ascii.eqb a b then strip_prefix p' s' else None
  | String _ _, EmptyString => None
  end.

(** A sequence of parent assignments applied in order. *)
Definition assign (rel : gmap string string) (links : list (string * string))
  : gmap string string :=
  foldl (λ rel '(child, par), <[child := par]> rel) rel links.

(** The body an invocation writes, if it is the body edit: the issue
    number it names and the text on its standard input. *)
Definition body_edit (inv : invocation) : option (string * string) :=
  match argv inv, input inv with
  | ["gh"; "issue"; "edit"; issue_num; "-b"; "-"], Some text => Some (issue_num, text)
  | _, _ => None
  end.

(** The parent assignments an invocation asks for, as (child, parent):
    one if it is the sub-issue mutation with [replaceParent=true]. *)
Definition links (inv : invocation) : list (string * string) :=
  match argv inv with
  | ["gh"; "api"; "graphql"; "-f"; _; "-f"; a; "-f"; b; "-F"; "replaceParent=true"] =>
      match strip_prefix "issueId=" a, strip_prefix "subIssueId=" b with
      | Some parent_id, Some child_id => [(child_id, parent_id)]
      | _, _ => []
      end
  | _ => []
  end.

(** Modelled from the spec: the tracker is not part of the repository.
    [editIssueBody] overwrites the full body with the text it is given,
    and [linkSubIssue] with [replaceParent=true] sets the parent of the
    child, overwriting any earlier parent rather than adding a second
    one.  No other call changes the bodies or the parent relation. *)
Definition mutate (inv : invocation) (st : state) : state :=
  State
    (match body_edit inv with
     | Some (issue_num, text) => <[issue_num := text]> (bodies st)
     | None => bodies st
     end)
    (assign (parent st) (links inv)).

(** Modelled from the spec: a call that exits with a non-zero status is
    one the tracker did not perform.  What the client answers to each
    invocation ([answer]: exit status, output and error text) is taken
    as given. *)
Definition step (answer : invocation → CompletedProcess)
    (st : state) (inv : invocation) : CompletedProcess * state :=
  let r := answer inv in
  (r, if Z.eqb (returncode r) 0 then mutate inv st else st).

Definition system (answer : invocation → CompletedProcess) : External :=
  {| ext := state; gh := step answer |}.

(** The parent the sequence [links] leaves a child with, if it names it. *)
Fixpoint final (links : list (string * string)) (child : string) : option string :=
  match links with
  | [] => None
  | (c, p) :: rest =>
      match final rest child with
      | Some q => Some q
      | None => if decide (child = c) then Some p else None
      end
  end.

End Tracker.

(** ** The sub-issue relation of the tracker, over two runs of a pass *)

Module SubIssues.

(** Modelled from the spec: the tracker is not part of the repository.
    The relation holds, for each child (by global identifier), the
    parents it was given, in the order they were added; [run_number]
    says which run of a pass the tracker is answering (0 for the first,
    1 for the second) and [call_index] how many calls of that run it
    has answered. *)
Record state := State {
  relation : gmap string (list string);
  run_number : nat;
  call_index : nat
}.

(** The link an invocation asks for, if it is the sub-issue mutation:
    the parent, the child, and whether it carries [replaceParent=true]. *)
Definition request (inv : invocation) : option (string * string * bool) :=
  match argv inv with
  | "gh" :: "api" :: "graphql" :: "-f" :: _ :: "-f" :: a :: "-f" :: b :: flags =>
      match Tracker.strip_prefix "issueId=" a, Tracker.strip_prefix "subIssueId=" b with
      | Some parent_id, Some child_id =>
          Some (parent_id, child_id, bool_decide (flags = ["-F"; "replaceParent=true"]))
      | _, _ => None
      end
  | _ => None
  end.

(** Modelled from the spec (repeated calls with [replaceParent=true]
    overwrite the parent rather than duplicating the relation): with
    the flag the child is left with the one parent named; without it
    the parent is added to those the child has, a second time if it is
    there already. *)
Definition link (rel : gmap string (list string)) (r : string * string * bool)
  : gmap string (list string) :=
  let '(parent_id, child_id, replace) := r in
  if replace
  then <[child_id := [parent_id]]> rel
  else <[child_id := default [] (rel !! child_id) ++ [parent_id]]> rel.

Definition mutate (inv : invocation) (rel : gmap string (list string))
  : gmap string (list string) :=
  match request inv with
  | Some r => link rel r
  | None => rel
  end.

(** Modelled from the spec: a call that exits with a non-zero status is
    one the tracker did not perform.  What the client answers (exit
    status, output, error text) is given by [answers] for each run, each
    position of a call in the run, and each invocation: it may differ
    from one run to the next and from one call to the next. *)
Definition step (answers : nat → nat → invocation → CompletedProcess)
    (st : state) (inv : invocation) : CompletedProcess * state :=
  let r := answers (run_number st) (call_index st) inv in
  (r, State (if Z.eqb (returncode r) 0 then mutate inv (relation st) else relation st)
            (run_number st) (S (call_index st))).

Definition system (answers : nat → nat → invocation → CompletedProcess) : External :=
  {| ext := state; gh := step answers |}.

(** An invocation that, if it asks for a link, asks with
    [replaceParent=true]. *)
Definition replaces (inv : invocation) : Prop :=
  ∀ parent_id child_id flag, request inv = Some (parent_id, child_id, flag) → flag = true.

(** The (child, parent) pair of a link request. *)
Definition pair_of (inv : invocation) : list (string * string) :=
  match request inv with
  | Some (parent_id, child_id, _) => [(child_id, parent_id)]
  | None => []
  end.

(** A sequence of overwriting links applied in order. *)
Definition replace_all (rel : gmap string (list string)) (links : list (string * string))
  : gmap string (list string) :=
  foldl (λ rel '(child, par), <[child := [par]]> rel) rel links.

(** A computation that, started at the same position of the first and
    of the second run and whatever the relation is, ends with the same
    outcome, has made the same number of calls and has applied the same
    overwriting links. *)
Definition steady (answers : nat → nat → invocation → CompletedProcess) {A}
    (m : @M (system answers) A) : Prop :=
  ∀ i, ∃ o links n, ∀ w : @world (system answers),
    (run_number (external w) ≤ 1)%nat →
    call_index (external w) = i →
    ∃ w' : @world (system answers), m w = (o, w')
          ∧ relation (external w') = replace_all (relation (external w)) links
          ∧ run_number (external w') = run_number (external w)
          ∧ call_index (external w') = (i + n)%nat.

End SubIssues.

(** ** Concrete runtimes and external systems *)

Module Samples.

(** A [json.loads] that knows the texts of [table] and rejects the
    rest with the message Python gives for an empty document. *)
Fixpoint table_loads (table : list (string * pyval)) (s : string) : string + pyval :=
  match table with
  | [] => inl "Expecting value: line 1 column 1 (char 0)"
  | (text, v) :: rest => if String.eqb s text then inr v else table_loads rest s
  end.

Definition is_space (c : ascii) : bool :=
  let n := nat_of_ascii c in
  ((9 <=? n) && (n <=? 13) || (28 <=? n) && (n <=? 32))%nat.

Fixpoint lstrip (s : string) : string :=
  match s with
  | String c s' => if is_space c then lstrip s' else s
  | EmptyString => EmptyString
  end.

Fixpoint rstrip (s : string) : string :=
  match s with
  | String c s' =>
      match rstrip s' with
      | EmptyString => if is_space c then EmptyString else String c EmptyString
      | t => String c t
      end
  | EmptyString => EmptyString
  end.

(** [str.strip] on texts whose white space is ASCII. *)
Definition ascii_strip (s : string) : string := rstrip (lstrip s).

Definition number_reply (n : Z) : string :=
  "{" +:+ DQ +:+ "number" +:+ DQ +:+ ": " +:+ pretty n +:+ "}".

Definition body_reply (b : string) : string :=
  "{" +:+ DQ +:+ "body" +:+ DQ +:+ ":" +:+ DQ +:+ b +:+ DQ +:+ "}".

Definition id_reply (gid : string) : string :=
  "{" +:+ DQ +:+ "data" +:+ DQ +:+ ":{" +:+ DQ +:+ "repository" +:+ DQ +:+ ":{"
    +:+ DQ +:+ "issue" +:+ DQ +:+ ":{" +:+ DQ +:+ "id" +:+ DQ +:+ ":"
    +:+ DQ +:+ gid +:+ DQ +:+ "}}}}".

Definition id_value (gid : string) : pyval :=
  PyDict [("data", PyDict [("repository", PyDict [("issue", PyDict [("id", PyStr gid)])])])].

Definition runtime : Runtime :=
  {| json_loads := table_loads
       [ (number_reply 10, PyDict [("number", PyInt 10)]);
         (number_reply 11, PyDict [("number", PyInt 11)]);
         (number_reply 12, PyDict [("number", PyInt 12)]);
         (number_reply 13, PyDict [("number", PyInt 13)]);
         (body_reply "Task list", PyDict [("body", PyStr "Task list")]);
         (id_reply "I_45", id_value "I_45");
         (id_reply "I_12", id_value "I_12") ];
     py_repr := λ _, "...";
     py_strip := ascii_strip |}.

(** A runtime whose [json.loads] knows the texts of [table]. *)
Definition runtime_of (table : list (string * pyval)) : Runtime :=
  {| json_loads := table_loads table;
     py_repr := λ _, "...";
     py_strip := ascii_strip |}.

(** An external system every call of which fails. *)
Definition unreachable : External :=
  {| ext := unit; gh := λ _ _, ({| returncode := 1; stdout := ""; stderr := "HTTP 502" |}, ()) |}.

(** An external system that plays back a fixed sequence of outcomes,
    one per call, and fails every call after the last. *)
Definition ok (out : string) : CompletedProcess :=
  {| returncode := 0; stdout := out; stderr := "" |}.

Definition failed (err : string) : CompletedProcess :=
  {| returncode := 1; stdout := ""; stderr := err |}.

Definition playback : External :=
  {| ext := list CompletedProcess;
     gh := λ pending _,
       match pending with
       | r :: rest => (r, rest)
       | [] => (failed "", [])
       end |}.

(** Answers looked up by argument vector; a call that is not listed
    succeeds with an empty output. *)
Fixpoint answer_from (table : list (list string * CompletedProcess))
    (inv : invocation) : CompletedProcess :=
  match table with
  | [] => ok ""
  | (args, r) :: rest =>
      if bool_decide (argv inv = args) then r else answer_from rest inv
  end.

(** The world a script starts in when the outcomes [pending] await. *)
Definition start (pending : list CompletedProcess) : @world playback :=
  @initial playback pending.

(** Runs in which [subprocess.run] raises on every call that adds a
    label, as it does for an argument with a NUL character, and on no
    other call. *)
Definition labels_fault : @Faults playback :=
  {| fault := λ pending inv,
       match argv inv, input inv with
       | [a; b; c; _; d; _], None =>
           if bool_decide ([a; b; c; d] = ["gh"; "issue"; "edit"; "--add-label"])
           then Some (Exn ValueError "embedded null byte", pending)
           else None
       | _, _ => None
       end |}.

(** Runs in which the [gh] program cannot be started. *)
Definition gh_missing : @Faults playback :=
  {| fault := λ pending _,
       Some (Exn OSError "[Errno 2] No such file or directory: 'gh'", pending) |}.

(** Answers to the GraphQL pass over the map 45 → [12] in which both
    ids are resolved in every run, and the link call is refused in the
    first run (number 0) and accepted in the second. *)
Definition link_refused_once (run index : nat) : invocation → CompletedProcess :=
  answer_from
    [ (argv (LinkIssuesGraphql.id_call 45), ok (id_reply "I_45"));
      (argv (LinkIssuesGraphql.id_call 12), ok (id_reply "I_12"));
      (argv (LinkIssuesGraphql.link_call (H := runtime) (PyStr "I_45") (PyStr "I_12")),
       match run with
       | O => failed "HTTP 502"
       | _ => ok "{}"
       end) ].

(** Answers in which both ids are resolved and every call is accepted,
    in every run. *)
Definition link_accepted (run index : nat) : invocation → CompletedProcess :=
  answer_from
    [ (argv (LinkIssuesGraphql.id_call 45), ok (id_reply "I_45"));
      (argv (LinkIssuesGraphql.id_call 12), ok (id_reply "I_12")) ].

Import CreateMilestonesAndIssues.

(** The two first phases of [PHASES], each with its first issue. *)
Definition PHASES_excerpt : list (string * phase) :=
  [ ("Phase 0: Prep & Hardening",
     {| description := "Stabilize codebase, improve type safety, add telemetry, prepare for cloud migration.";
        duration := "2-3 weeks";
        issues :=
          [ {| title := "Complete Command Pattern Integration";
               body := py_lines
                 [ "## Description";
                   "Audit all `setSpec` calls in CanvasStage.tsx and ensure all mutations go through the command system.";
                   "";
                   "## Tasks";
                   "- Audit all `setSpec` calls in CanvasStage.tsx";
                   "- Route transform operations through `createTransformNodesCommand`";
                   "- Route property updates through `createUpdateNodePropsCommand`";
                   "- Ensure all paths use `setSpec` wrapper with history tracking";
                   "- Add tests for any newly routed commands";
                   "";
                   "## Acceptance Criteria";
                   "- All spec mutations go through command system";
                   "- New tests added for routed commands";
                   "- No behavior changes to user-facing functionality";
                   "";
                   "## Labels";
                   "enhancement, tech-debt, priority-high" ] |} ] |});
    ("Phase 1: Cloud Persistence + Sharing",
     {| description := "Replace localStorage with cloud storage, enable canvas sharing with basic roles.";
        duration := "3-4 weeks";
        issues :=
          [ {| title := "Set Up Cloudflare Infrastructure";
               body := py_lines
                 [ "## Description";
                   "Initialize Cloudflare Pages and Workers infrastructure for cloud deployment.";
                   "";
                   "## Tasks";
                   "- Create Pages project for frontend";
                   "- Create Worker project for API (`workers/api/`)";
                   "- Set up D1 database with schema";
                   "- Configure wrangler.toml for dev/staging/prod";
                   "- Set up GitHub Actions for deployment";
                   "- Document local dev setup in README";
                   "";
                   "## Acceptance Criteria";
                   "- App deployable to Cloudflare Pages";
                   "- Worker project scaffolded and configured";
                   "- D1 database created with tables";
                   "- Deployment automated via GitHub Actions";
                   "";
                   "## Labels";
                   "infrastructure, priority-high" ] |} ] |}) ].

(** Bindings under which the functions of the creation driver get
    past their name lookups.  They are not the module's: the script
    binds neither [REPO] nor [issue_number]. *)
Definition names_bound : gmap string string :=
  <["REPO" := "goblinsan/visual-flow"]> (<["issue_number" := "11"]> module_globals).

(** The example of the specification: one phase described as
    "Stabilize X" with the issues "A" and "B". *)
Definition scenario : list (string * phase) :=
  [ ("Phase 0: Prep & Hardening",
     {| description := "Stabilize X";
        duration := "2-3 weeks";
        issues := [ {| title := "A"; body := "A" |}; {| title := "B"; body := "B" |} ] |}) ].

(** The outcomes of that example: milestone 10, epic 11, issues 12, 13. *)
Definition scenario_outcomes : list CompletedProcess :=
  [ ok (number_reply 10); ok (number_reply 11); ok (number_reply 12); ok (number_reply 13) ].

End Samples.

(** ** The repository an invocation names *)

Module Coordinate.

(** The text up to the first [stop] character, and the text after it. *)
Fixpoint split_at (stop : ascii) (s : string) : option (string * string) :=
  match s with
  | EmptyString => None
  | String c s' =>
      if Ascii.eqb c stop then Some (EmptyString, s')
      else match split_at stop s' with
           | Some (h, t) => Some (String c h, t)
           | None => None
           end
  end.

(** The text after the first occurrence of [marker]. *)
Fixpoint after_marker (marker s : string) : option string :=
  match Tracker.strip_prefix marker s with
  | Some rest => Some rest
  | None =>
      match s with
      | EmptyString => None
      | String _ s' => after_marker marker s'
      end
  end.

(** [/repos/<owner>/<name>/...]: the owner and name of a REST path. *)
Definition of_endpoint (endpoint : string) : option string :=
  match Tracker.strip_prefix "/repos/" endpoint with
  | Some rest =>
      match split_at "/" rest with
      | Some (owner, rest) =>
          match split_at "/" rest with
          | Some (name, _) => Some (owner +:+ "/" +:+ name)
          | None => Some (owner +:+ "/" +:+ rest)
          end
      | None => None
      end
  | None => None
  end.

(** [repository(owner: "<owner>", name: "<name>")] in a GraphQL text. *)
Definition of_query (query : string) : option string :=
  match after_marker ("repository(owner: " +:+ DQ) query with
  | Some rest =>
      match split_at "034" rest with
      | Some (owner, rest) =>
          match Tracker.strip_prefix (", name: " +:+ DQ) rest with
          | Some rest =>
              match split_at "034" rest with
              | Some (name, _) => Some (owner +:+ "/" +:+ name)
              | None => None
              end
          | None => None
          end
      | None => None
      end
  | None => None
  end.

(** The value of the first [-f query=...] field among flag/value pairs. *)
Fixpoint query_field (args : list string) : option string :=
  match args with
  | flag :: value :: rest =>
      match Tracker.strip_prefix "query=" value with
      | Some q => Some q
      | None => query_field rest
      end
  | _ => None
  end.

(** The value given with [--repo] among flag/value pairs. *)
Fixpoint repo_flag (args : list string) : option string :=
  match args with
  | flag :: value :: rest =>
      if String.eqb flag "--repo" then Some value else repo_flag rest
  | _ => None
  end.

(** The repository an invocation of the client names, read off the
    shapes of argument vector the scripts use: the endpoint of
    [gh api], the query of [gh api graphql], or the [--repo] flag of
    the issue and milestone commands ([view] and [edit] first take the
    issue number).  [None]: the invocation names no repository. *)
Definition coordinate (inv : invocation) : option string :=
  match argv inv with
  | "gh" :: "api" :: "graphql" :: rest =>
      match query_field rest with
      | Some q => of_query q
      | None => None
      end
  | "gh" :: "api" :: "-X" :: _ :: endpoint :: _ => of_endpoint endpoint
  | "gh" :: "api" :: endpoint :: _ => of_endpoint endpoint
  | "gh" :: "issue" :: "view" :: _ :: rest => repo_flag rest
  | "gh" :: "issue" :: "edit" :: _ :: rest => repo_flag rest
  | "gh" :: _ :: _ :: rest => repo_flag rest
  | _ => None
  end.

(** An invocation that names [repo] or no repository at all. *)
Definition within (repo : string) (inv : invocation) : Prop :=
  coordinate inv = Some repo ∨ coordinate inv = None.

(** A computation all of whose invocations satisfy [P]. *)
Definition emits `{External} (P : invocation → Prop) {A} (m : M A) : Prop :=
  ∀ w, Forall P (calls w) → Forall P (calls (m w).2).

End Coordinate.

(** ** How a computation ends *)

(** A computation that, from every world, returns normally having made
    exactly the invocations [invs], in that order. *)
Definition makes `{External} {A} (m : M A) (invs : list invocation) : Prop :=
  ∀ w, ∃ a w', m w = (Return a, w') ∧ calls w' = calls w ++ invs.

(** A computation that returns normally from every world. *)
Definition returns `{External} {A} (m : M A) : Prop :=
  ∀ w, ∃ a w', m w = (Return a, w').

(** A computation that makes no invocation, however it ends. *)
Definition quiet `{External} {A} (m : M A) : Prop :=
  ∀ w, calls (m w).2 = calls w ∧ external (m w).2 = external w.

(** A computation that was to make the invocations [invs] from the
    world [w] and was stopped by [subprocess.run] raising on one of
    them: it ends with that exception, having made the invocations up
    to and including that one, the earlier ones having completed. *)
Definition stopped `{External} `{!Faults} {A} (w : world) (invs : list invocation)
    (r : outcome A * world) : Prop :=
  ∃ x pre inv,
    r.1 = Raise x
    ∧ calls r.2 = calls w ++ pre ++ [inv]
    ∧ (pre ++ [inv]) `prefix_of` invs
    ∧ fault (after (external w) pre) inv = Some (x, external r.2).

(** A computation that makes exactly the invocations [invs], in that
    order, and returns, unless [subprocess.run] raises on one of them. *)
Definition attempts `{External} `{!Faults} {A} (m : M A) (invs : list invocation) : Prop :=
  ∀ w,
    (∃ a, (m w).1 = Return a
          ∧ calls (m w).2 = calls w ++ invs
          ∧ external (m w).2 = after (external w) invs)
    ∨ stopped w invs (m w).

(** * Properties *)

(** ** Reasoning about the monad *)

Section Monad.
Context `{External}.

Lemma bind_return {A B} (m : M A) (f : A → M B) w a w' :
  m w = (Return a, w') → (m ≫= f) w = f a w'.
Proof. intros E. unfold mbind, M_bind. by rewrite E. Qed.

Lemma bind_raise {A B} (m : M A) (f : A → M B) w e w' :
  m w = (Raise e, w') → (m ≫= f) w = (Raise e, w').
Proof. intros E. unfold mbind, M_bind. by rewrite E. Qed.

Lemma print_run s w :
  print s w = (Return (), World _ (external w) (printed w ++ [s]) (calls w)).
Proof. reflexivity. Qed.

(** A call in a run in which every call returns. *)
Lemma subprocess_run_run args stdin w :
  subprocess_run args stdin w =
    let inv := {| argv := args; input := stdin |} in
    (Return (gh (external w) inv).1,
     World _ (gh (external w) inv).2 (printed w) (calls w ++ [inv])).
Proof. unfold subprocess_run. cbv zeta. cbn [fault no_faults]. by destruct (gh _ _). Qed.

Lemma try_except_return {A} (m : M A) h w a w' :
  m w = (Return a, w') → try_except m h w = (Return a, w').
Proof. intros E. unfold try_except. by rewrite E. Qed.

Lemma try_except_raise {A} (m : M A) h w e w' :
  m w = (Raise e, w') → try_except m h w = h e w'.
Proof. intros E. unfold try_except. by rewrite E. Qed.

End Monad.

(** ** The creation driver and its unbound names *)

Section CreationDriver.
Context `{Runtime} `{External}.
Import CreateMilestonesAndIssues.

Lemma REPO_unbound : module_globals !! "REPO" = None.
Proof. reflexivity. Qed.

Lemma issue_number_unbound : module_globals !! "issue_number" = None.
Proof. reflexivity. Qed.

Lemma create_milestone_raises title description duration w :
  create_milestone module_globals title description duration w =
    (Raise (Exn NameError "name 'REPO' is not defined"),
     World _ (external w) (printed w ++ ["📌 Creating milestone: " +:+ title]) (calls w)).
Proof.
  unfold create_milestone.
  erewrite bind_return by apply print_run.
  erewrite bind_raise; [reflexivity|].
  unfold load_global. rewrite REPO_unbound. reflexivity.
Qed.

Lemma create_epic_raises milestone_num title w :
  create_epic module_globals milestone_num title w =
    (Raise (Exn NameError "name 'issue_number' is not defined"),
     World _ (external w) (printed w ++ ["  📋 Creating epic: " +:+ title]) (calls w)).
Proof.
  unfold create_epic.
  erewrite bind_return by apply print_run.
  erewrite bind_raise; [reflexivity|].
  unfold load_global. rewrite issue_number_unbound. reflexivity.
Qed.

Lemma create_issue_raises milestone_num epic_num title body w :
  create_issue module_globals milestone_num epic_num title body w =
    (Raise (Exn NameError "name 'REPO' is not defined"), w).
Proof.
  unfold create_issue.
  erewrite bind_raise; [reflexivity|].
  unfold load_global. rewrite REPO_unbound. reflexivity.
Qed.

Lemma main_raises name p rest e :
  main module_globals ((name, p) :: rest) (initial e) =
    (Raise (Exn NameError "name 'REPO' is not defined"),
     World _ e
       [ "🚀 Creating GitHub Milestones, Epics, and Issues";
         py_mul "=" 60;
         LF +:+ name;
         py_mul "-" 60;
         "📌 Creating milestone: " +:+ name ]
       []).
Proof.
  unfold main.
  erewrite bind_return by apply print_run.
  erewrite bind_return by apply print_run.
  erewrite bind_raise; [reflexivity|].
  cbn [for_each].
  erewrite bind_raise; [reflexivity|].
  unfold process_phase.
  erewrite bind_return by apply print_run.
  erewrite bind_return by apply print_run.
  erewrite bind_raise; [reflexivity|].
  rewrite create_milestone_raises. reflexivity.
Qed.

End CreationDriver.

(** C9: in create_milestones_and_issues.py the name REPO is bound
    nowhere (REPO_OWNER and REPO_NAME are), so every call of
    create_milestone raises NameError before any external invocation;
    create_epic raises NameError on issue_number while building its body;
    and main, on any catalog with a first phase, makes no invocation at
    all and ends with that exception while handling the first phase. *)
Theorem unbound_names_stop_the_creation_driver `{Runtime} `{External} :
  let G := CreateMilestonesAndIssues.module_globals in
  G !! "REPO" = None ∧
  G !! "REPO_OWNER" = Some "goblinsan" ∧
  G !! "REPO_NAME" = Some "visual-flow" ∧
  (∀ title description duration w, ∃ w',
     CreateMilestonesAndIssues.create_milestone G title description duration w =
       (Raise (Exn NameError "name 'REPO' is not defined"), w')
     ∧ calls w' = calls w ∧ external w' = external w) ∧
  (∀ milestone_num title w, ∃ w',
     CreateMilestonesAndIssues.create_epic G milestone_num title w =
       (Raise (Exn NameError "name 'issue_number' is not defined"), w')
     ∧ calls w' = calls w ∧ external w' = external w) ∧
  (∀ name p rest e, ∃ w',
     CreateMilestonesAndIssues.main G ((name, p) :: rest) (initial e) =
       (Raise (Exn NameError "name 'REPO' is not defined"), w')
     ∧ calls w' = [] ∧ external w' = e
     ∧ printed w' =
         [ "🚀 Creating GitHub Milestones, Epics, and Issues";
           py_mul "=" 60;
           LF +:+ name;
           py_mul "-" 60;
           "📌 Creating milestone: " +:+ name ]).
Proof.
  cbv zeta. split_and!; try reflexivity.
  - intros. eexists. rewrite create_milestone_raises. done.
  - intros. eexists. rewrite create_epic_raises. done.
  - intros. eexists. rewrite main_raises. done.
Qed.

(** C2: the driver does not get to skip a phase whose milestone could
    not be created.  On the first two phases of the catalog, with every
    external call set to fail, main ends with NameError inside
    create_milestone: nothing is invoked, the failure of the milestone is
    not reported, and the second phase is never started. *)
Theorem milestone_failure_stops_the_driver (rt : Runtime) :
  ∃ w,
    CreateMilestonesAndIssues.main (H0 := Samples.playback)
      CreateMilestonesAndIssues.module_globals Samples.PHASES_excerpt (Samples.start []) =
      (Raise (Exn NameError "name 'REPO' is not defined"), w)
    ∧ calls w = []
    ∧ ("❌ Failed to create milestone for Phase 0: Prep & Hardening" ∉ printed w)
    ∧ ((LF +:+ "Phase 1: Cloud Persistence + Sharing") ∉ printed w)
    ∧ ("✨ Done! All milestones, epics, and issues created." ∉ printed w).
Proof.
  eexists. unfold Samples.PHASES_excerpt, Samples.start. rewrite main_raises.
  split_and!; try reflexivity; cbn [printed];
    apply (bool_decide_unpack _); by vm_compute.
Qed.

(** C6: the driver does not get to skip the issues of a phase whose epic
    could not be created.  In the example of the specification, with the
    milestone call set to succeed with number 10 and the epic call set
    to fail, main ends with NameError before consuming any outcome; and
    create_epic itself, given milestone 10, raises NameError instead of
    returning no id, whatever the external system does. *)
Theorem epic_failure_stops_the_driver (rt : Runtime) :
  let pending := [Samples.ok (Samples.number_reply 10); Samples.failed "HTTP 422"] in
  (∃ w,
     CreateMilestonesAndIssues.main (H0 := Samples.playback)
       CreateMilestonesAndIssues.module_globals Samples.scenario (Samples.start pending) =
       (Raise (Exn NameError "name 'REPO' is not defined"), w)
     ∧ calls w = [] ∧ external w = pending
     ∧ ("❌ Failed to create epic for Phase 0: Prep & Hardening" ∉ printed w)) ∧
  (∀ w, ∃ w',
     CreateMilestonesAndIssues.create_epic (H0 := Samples.playback)
       CreateMilestonesAndIssues.module_globals (PyInt 10) "0: Prep & Hardening" w =
       (Raise (Exn NameError "name 'issue_number' is not defined"), w')
     ∧ calls w' = calls w).
Proof.
  cbv zeta. split.
  - eexists. unfold Samples.scenario, Samples.start. rewrite main_raises.
    split_and!; try reflexivity; cbn [printed];
      apply (bool_decide_unpack _); by vm_compute.
  - intros w. eexists. rewrite create_epic_raises. done.
Qed.

(** ** An unparsable reply ends the GraphQL linking script *)

Section GraphqlReplies.
Context `{Runtime} `{External}.
Import LinkIssuesGraphql.

Lemma get_issue_id_unparsable issue_num w msg :
  returncode (gh (external w) (id_call issue_num)).1 = 0 →
  json_loads (stdout (gh (external w) (id_call issue_num)).1) = inl msg →
  get_issue_id issue_num w =
    (Raise (Exn JSONDecodeError msg),
     World _ (gh (external w) (id_call issue_num)).2 (printed w)
       (calls w ++ [id_call issue_num])).
Proof.
  intros Hcode Hparse. unfold get_issue_id. cbv zeta.
  erewrite bind_return by apply subprocess_run_run.
  cbv zeta. fold (id_call issue_num). rewrite Hcode. cbn [Z.eqb].
  erewrite bind_raise; [reflexivity|].
  unfold loads. rewrite Hparse. reflexivity.
Qed.

End GraphqlReplies.

(** C1: not every script turns every failed call into a message and a
    no-result value.  In link_issues_graphql.py, get_issue_id parses the
    reply of a call that exited with 0 outside any try block: when that
    reply is not JSON (an empty output, say) for the first epic of the id
    map, the script ends with JSONDecodeError after one invocation and its
    summary line is never printed. *)
Theorem unparsable_reply_ends_graphql_script `{Runtime} `{External} (e : ext) msg :
  returncode (gh e (LinkIssuesGraphql.id_call 45)).1 = 0 →
  json_loads (stdout (gh e (LinkIssuesGraphql.id_call 45)).1) = inl msg →
  ∃ w,
    LinkIssuesGraphql.script phase_map (initial e) = (Raise (Exn JSONDecodeError msg), w)
    ∧ calls w = [LinkIssuesGraphql.id_call 45]
    ∧ printed w = ["Fetching issue IDs..." +:+ LF]
    ∧ (LinkIssuesGraphql.summary ∉ printed w).
Proof.
  intros Hcode Hparse. eexists. split.
  - unfold LinkIssuesGraphql.script.
    erewrite bind_return by apply print_run.
    erewrite bind_raise; [reflexivity|].
    unfold LinkIssuesGraphql.fetch_parents, phase_map. cbn [fmap list_fmap fst fold_each].
    erewrite bind_raise; [reflexivity|].
    erewrite bind_raise; [reflexivity|].
    apply get_issue_id_unparsable; done.
  - cbn [calls printed initial app]. split_and!; try reflexivity.
    apply (bool_decide_unpack _). by vm_compute.
Qed.

Lemma unparsable_reply_ends_graphql_script_witness :
  ∃ w,
    LinkIssuesGraphql.script (H := Samples.runtime) phase_map (Samples.start [Samples.ok ""]) =
      (Raise (Exn JSONDecodeError "Expecting value: line 1 column 1 (char 0)"), w)
    ∧ calls w = [LinkIssuesGraphql.id_call 45]
    ∧ printed w = ["Fetching issue IDs..." +:+ LF]
    ∧ (LinkIssuesGraphql.summary ∉ printed w).
Proof.
  apply (unparsable_reply_ends_graphql_script (H := Samples.runtime) (H0 := Samples.playback)
           [Samples.ok ""]); reflexivity.
Defined.

(** ** Labels are added after the creation call and cannot undo it *)

Section Labels.
Context `{Runtime} `{External}.

Lemma epic_label_run num label w :
  CreateEpics.add_label num label w =
    (Return (),
     World _ (gh (external w) (CreateEpics.label_call num label)).2
       (printed w) (calls w ++ [CreateEpics.label_call num label])).
Proof.
  unfold CreateEpics.add_label.
  erewrite bind_return by apply subprocess_run_run. reflexivity.
Qed.

Lemma epic_labels_run num labels w :
  for_each labels (CreateEpics.add_label num) w =
    (Return (),
     World _ (after (external w) (CreateEpics.label_call num <$> labels))
       (printed w) (calls w ++ (CreateEpics.label_call num <$> labels))).
Proof.
  revert w. induction labels as [|label labels IH]; intros w.
  - cbn. rewrite app_nil_r. by destruct w.
  - cbn [for_each].
    erewrite bind_return by apply epic_label_run.
    rewrite IH. cbn. by rewrite <- app_assoc.
Qed.

Lemma run_gh_run args w :
  CreateGithubIssues.run_gh args w =
    let inv := {| argv := "gh" :: args; input := None |} in
    let r := (gh (external w) inv).1 in
    (Return (py_strip (stdout r), py_strip (stderr r), returncode r),
     World _ (gh (external w) inv).2 (printed w) (calls w ++ [inv])).
Proof.
  unfold CreateGithubIssues.run_gh.
  erewrite bind_return by apply subprocess_run_run. reflexivity.
Qed.

Lemma issue_label_run num label w :
  CreateGithubIssues.add_label num label w =
    (Return (),
     World _ (gh (external w) (CreateGithubIssues.label_call num label)).2
       (printed w) (calls w ++ [CreateGithubIssues.label_call num label])).
Proof.
  unfold CreateGithubIssues.add_label.
  erewrite bind_return by apply run_gh_run. reflexivity.
Qed.

Lemma issue_labels_run num labels w :
  for_each labels (CreateGithubIssues.add_label num) w =
    (Return (),
     World _ (after (external w) (CreateGithubIssues.label_call num <$> labels))
       (printed w) (calls w ++ (CreateGithubIssues.label_call num <$> labels))).
Proof.
  revert w. induction labels as [|label labels IH]; intros w.
  - cbn. rewrite app_nil_r. by destruct w.
  - cbn [for_each].
    erewrite bind_return by apply issue_label_run.
    rewrite IH. cbn. by rewrite <- app_assoc.
Qed.

End Labels.

(** C7: labels are added by follow-up calls, one per label, after the
    creation call, and their outcome does not reach the result.  Whenever
    the creation call of create_epic (create_epics.py) or of create_issue
    (create_github_issues.py) exits with 0 and its output parses to an
    object, the function returns that object's number, and the calls it
    made are the creation call followed by exactly one label call per
    label, whatever the external system answers to the label calls. *)
Theorem label_failures_do_not_fail_creation `{Runtime} `{External}
    (title body : string) (labels : list string) (milestone_num : pyval)
    (w1 w2 : world) (kv1 kv2 : list (string * pyval)) :
  let epic_call := CreateEpics.create_call title body in
  let issue_call := CreateGithubIssues.create_call title body milestone_num in
  let epic_num := default PyNone (assoc_last "number" kv1) in
  let issue_num := default PyNone (assoc_last "number" kv2) in
  returncode (gh (external w1) epic_call).1 = 0 →
  json_loads (stdout (gh (external w1) epic_call).1) = inr (PyDict kv1) →
  returncode (gh (external w2) issue_call).1 = 0 →
  json_loads (py_strip (stdout (gh (external w2) issue_call).1)) = inr (PyDict kv2) →
  (∃ w',
     CreateEpics.create_epic title body labels w1 = (Return epic_num, w')
     ∧ calls w' = (calls w1 ++ epic_call :: (CreateEpics.label_call epic_num <$> labels))%list) ∧
  (∃ w',
     CreateGithubIssues.create_issue title body milestone_num labels w2 = (Return issue_num, w')
     ∧ calls w' = (calls w2 ++ issue_call :: (CreateGithubIssues.label_call issue_num <$> labels))%list).
Proof.
  cbv zeta. intros Hc1 Hp1 Hc2 Hp2. split.
  - eexists. split.
    + unfold CreateEpics.create_epic.
      erewrite bind_return by apply subprocess_run_run.
      cbv zeta. fold (CreateEpics.create_call title body). rewrite Hc1. cbn [Z.eqb negb].
      eapply try_except_return.
      erewrite bind_return; last first.
      { unfold loads. rewrite Hp1. reflexivity. }
      erewrite bind_return by reflexivity.
      erewrite bind_return by apply print_run.
      erewrite bind_return by apply epic_labels_run.
      reflexivity.
    + cbn [calls]. by rewrite <- app_assoc.
  - eexists. split.
    + unfold CreateGithubIssues.create_issue.
      erewrite bind_return by apply print_run.
      cbv zeta.
      erewrite bind_return by apply run_gh_run.
      cbv zeta. cbn [external].
      replace {| argv := _; input := None |}
        with (CreateGithubIssues.create_call title body milestone_num)
        by (unfold CreateGithubIssues.create_call; by destruct (truthy milestone_num)).
      rewrite Hc2. cbn [Z.eqb negb].
      eapply try_except_return.
      erewrite bind_return; last first.
      { unfold loads. rewrite Hp2. reflexivity. }
      erewrite bind_return by reflexivity.
      erewrite bind_return by apply print_run.
      erewrite bind_return by apply issue_labels_run.
      reflexivity.
    + cbn [calls]. by rewrite <- app_assoc.
Qed.

Lemma label_failures_do_not_fail_creation_witness :
  let title := "Complete Command Pattern Integration" in
  let body := "Audit all setSpec calls in CanvasStage.tsx and route through command system." in
  let labels := ["enhancement"; "tech-debt"; "priority-high"] in
  let refused := Samples.failed "could not add label: not found" in
  (∃ w',
     CreateEpics.create_epic (H := Samples.runtime) title body labels
       (Samples.start [Samples.ok (Samples.number_reply 11); refused; refused; refused]) =
       (Return (PyInt 11), w')
     ∧ calls w' =
         ([] ++ CreateEpics.create_call title body
            :: (CreateEpics.label_call (H := Samples.runtime) (PyInt 11) <$> labels))%list) ∧
  (∃ w',
     CreateGithubIssues.create_issue (H := Samples.runtime) title body (PyInt 10) labels
       (Samples.start [Samples.ok (Samples.number_reply 12); refused; refused; refused]) =
       (Return (PyInt 12), w')
     ∧ calls w' =
         ([] ++ CreateGithubIssues.create_call (H := Samples.runtime) title body (PyInt 10)
            :: (CreateGithubIssues.label_call (H := Samples.runtime) (PyInt 12) <$> labels))%list).
Proof.
  cbv zeta.
  apply (label_failures_do_not_fail_creation (H := Samples.runtime) (H0 := Samples.playback)
           "Complete Command Pattern Integration"
           "Audit all setSpec calls in CanvasStage.tsx and route through command system."
           ["enhancement"; "tech-debt"; "priority-high"] (PyInt 10)
           (Samples.start [Samples.ok (Samples.number_reply 11);
                           Samples.failed "could not add label: not found";
                           Samples.failed "could not add label: not found";
                           Samples.failed "could not add label: not found"])
           (Samples.start [Samples.ok (Samples.number_reply 12);
                           Samples.failed "could not add label: not found";
                           Samples.failed "could not add label: not found";
                           Samples.failed "could not add label: not found"])
           [("number", PyInt 11)] [("number", PyInt 12)]); reflexivity.
Defined.

(** ** The body-rewrite linking pass against the tracker *)

Section BodyRewrite.
Context `{Runtime}.
Variable answer : invocation → CompletedProcess.
Import LinkChildToParent.

Abbreviation world := (@world (Tracker.system answer)).

Lemma mutate_inert inv st :
  Tracker.body_edit inv = None → Tracker.links inv = [] → Tracker.mutate inv st = st.
Proof. intros Hb Hl. destruct st. unfold Tracker.mutate. by rewrite Hb, Hl. Qed.

Lemma append_empty (s : string) : s +:+ "" = s.
Proof.
  induction s as [|c s IH]; [reflexivity|].
  change (String c (s +:+ "") = String c s). by rewrite IH.
Qed.

Lemma append_assoc (s t u : string) : (s +:+ t) +:+ u = s +:+ t +:+ u.
Proof.
  induction s as [|c s IH]; [reflexivity|].
  change (String c ((s +:+ t) +:+ u) = String c (s +:+ t +:+ u)). by rewrite IH.
Qed.

Lemma view_run issue_num (w : world) :
  subprocess_run (argv (view_call issue_num)) None w =
    (Return (answer (view_call issue_num)),
     World (Tracker.system answer) (external w) (printed w) (calls w ++ [view_call issue_num])).
Proof.
  rewrite subprocess_run_run. cbv zeta. cbn [gh Tracker.system Tracker.step fst snd].
  fold (view_call issue_num).
  destruct (Z.eqb _ 0); [|done].
  by rewrite mutate_inert.
Qed.

Lemma edit_run issue_num text (w : world) :
  subprocess_run (argv (edit_call issue_num text)) (Some text) w =
    (Return (answer (edit_call issue_num text)),
     World (Tracker.system answer)
       (if Z.eqb (returncode (answer (edit_call issue_num text))) 0
        then Tracker.State (<[pretty issue_num := text]> (Tracker.bodies (external w)))
               (Tracker.parent (external w))
        else external w)
       (printed w) (calls w ++ [edit_call issue_num text])).
Proof.
  rewrite subprocess_run_run. cbv zeta. cbn [gh Tracker.system Tracker.step fst snd].
  fold (edit_call issue_num text).
  by destruct (Z.eqb _ 0).
Qed.

Lemma update_issue_body_run issue_num parent_epic body (w : world) :
  let text := header parent_epic +:+ py_str body in
  ∃ w',
    update_issue_body issue_num parent_epic body w = (Return (), w')
    ∧ calls w' = (calls w ++ [edit_call issue_num text])%list
    ∧ external w' =
        if Z.eqb (returncode (answer (edit_call issue_num text))) 0
        then Tracker.State (<[pretty issue_num := text]> (Tracker.bodies (external w)))
               (Tracker.parent (external w))
        else external w.
Proof.
  cbv zeta. unfold update_issue_body. cbv zeta.
  erewrite bind_return by apply edit_run.
  destruct (Z.eqb _ 0); rewrite print_run; eexists; done.
Qed.

Lemma get_issue_body_fetched issue_num kv (w : world) :
  returncode (answer (view_call issue_num)) = 0 →
  json_loads (stdout (answer (view_call issue_num))) = inr (PyDict kv) →
  get_issue_body issue_num w =
    (Return (default (PyStr "") (assoc_last "body" kv)),
     World (Tracker.system answer) (external w) (printed w) (calls w ++ [view_call issue_num])).
Proof.
  intros Hcode Hparse. unfold get_issue_body.
  erewrite bind_return by apply view_run.
  rewrite Hcode. cbn [Z.eqb].
  erewrite bind_return; last first.
  { unfold loads. rewrite Hparse. reflexivity. }
  cbn [get_default]. by destruct (assoc_last "body" kv).
Qed.

Lemma get_issue_body_failed issue_num (w : world) :
  returncode (answer (view_call issue_num)) ≠ 0 →
  get_issue_body issue_num w =
    (Return (PyStr ""),
     World (Tracker.system answer) (external w) (printed w) (calls w ++ [view_call issue_num])).
Proof.
  intros Hcode. unfold get_issue_body.
  erewrite bind_return by apply view_run.
  apply Z.eqb_neq in Hcode. by rewrite Hcode.
Qed.

End BodyRewrite.

(** C8: the edit call carries the whole new body, which is the header
    followed by the body that was fetched.  For a child whose view call
    exits with 0 and parses to an object whose body is the string B, the
    pass makes the view call and then the edit call with the text
    "**Parent Epic:** #<epic>" + two line feeds + B on standard input;
    when the edit is accepted, the tracker, which overwrites the full
    body with the text it is given, holds exactly that text as the body
    of the issue. *)
Theorem rewritten_body_is_header_then_fetched_body `{Runtime}
    (answer : invocation → CompletedProcess) (epic_num issue_num : Z)
    (B : string) (kv : list (string * pyval)) (w : @world (Tracker.system answer)) :
  let view := LinkChildToParent.view_call issue_num in
  let new_body := "**Parent Epic:** #" +:+ pretty epic_num +:+ LF +:+ LF +:+ B in
  let edit := LinkChildToParent.edit_call issue_num new_body in
  returncode (answer view) = 0 →
  json_loads (stdout (answer view)) = inr (PyDict kv) →
  assoc_last "body" kv = Some (PyStr B) →
  returncode (answer edit) = 0 →
  ∃ w',
    LinkChildToParent.link_child epic_num issue_num w = (Return (), w')
    ∧ calls w' = (calls w ++ [view; edit])%list
    ∧ input edit = Some new_body
    ∧ Tracker.bodies (external w') !! pretty issue_num = Some new_body
    ∧ Tracker.parent (external w') = Tracker.parent (external w).
Proof.
  cbv zeta. intros Hview Hparse Hbody Hedit.
  assert (LinkChildToParent.header epic_num +:+ B =
          "**Parent Epic:** #" +:+ pretty epic_num +:+ LF +:+ LF +:+ B) as Htext.
  { unfold LinkChildToParent.header.
    rewrite !append_assoc. reflexivity. }
  destruct (update_issue_body_run answer issue_num epic_num (PyStr B)
              (World _ (external w) (printed w)
                 (calls w ++ [LinkChildToParent.view_call issue_num])))
    as (w' & Hrun & Hcalls & Hext).
  cbn [py_str external calls] in Hrun, Hcalls, Hext.
  rewrite Htext in Hcalls, Hext. rewrite Hedit in Hext. cbn [Z.eqb] in Hext.
  exists w'. split_and!.
  - unfold LinkChildToParent.link_child.
    erewrite bind_return by (eapply get_issue_body_fetched; eassumption).
    rewrite Hbody. exact Hrun.
  - rewrite Hcalls, <- app_assoc. reflexivity.
  - reflexivity.
  - rewrite Hext. cbn. apply lookup_insert_eq.
  - by rewrite Hext.
Qed.

Lemma rewritten_body_is_header_then_fetched_body_witness :
  let answer :=
    Samples.answer_from
      [ (argv (LinkChildToParent.view_call 12), Samples.ok (Samples.body_reply "Task list")) ] in
  let new_body := "**Parent Epic:** #" +:+ pretty 45 +:+ LF +:+ LF +:+ "Task list" in
  let w := @initial (Tracker.system answer) (Tracker.State {["12" := "Task list"]} ∅) in
  ∃ w',
    LinkChildToParent.link_child (H := Samples.runtime) 45 12 w = (Return (), w')
    ∧ calls w' =
        (calls w ++ [LinkChildToParent.view_call 12; LinkChildToParent.edit_call 12 new_body])%list
    ∧ input (LinkChildToParent.edit_call 12 new_body) = Some new_body
    ∧ Tracker.bodies (external w') !! pretty 12 = Some new_body
    ∧ Tracker.parent (external w') = Tracker.parent (external w).
Proof.
  cbv zeta.
  apply (rewritten_body_is_header_then_fetched_body (H := Samples.runtime)
           (Samples.answer_from
              [ (argv (LinkChildToParent.view_call 12),
                 Samples.ok (Samples.body_reply "Task list")) ])
           45 12 "Task list" [("body", PyStr "Task list")]); reflexivity.
Defined.

(** C10: a failed fetch does not skip the edit.  When the view call for
    a child exits with a non-zero status, get_issue_body returns the
    empty string and the pass still makes the edit call, with the header
    alone as text; when that edit is accepted, the body the tracker held
    for the issue is replaced by the header line and nothing else. *)
Theorem failed_fetch_replaces_body_by_header `{Runtime}
    (answer : invocation → CompletedProcess) (epic_num issue_num : Z)
    (previous : string) (w : @world (Tracker.system answer)) :
  let view := LinkChildToParent.view_call issue_num in
  let edit := LinkChildToParent.edit_call issue_num (LinkChildToParent.header epic_num) in
  Tracker.bodies (external w) !! pretty issue_num = Some previous →
  returncode (answer view) ≠ 0 →
  returncode (answer edit) = 0 →
  ∃ w1 w',
    LinkChildToParent.get_issue_body issue_num w = (Return (PyStr ""), w1)
    ∧ LinkChildToParent.link_child epic_num issue_num w = (Return (), w')
    ∧ calls w' = (calls w ++ [view; edit])%list
    ∧ input edit = Some ("**Parent Epic:** #" +:+ pretty epic_num +:+ LF +:+ LF)
    ∧ Tracker.bodies (external w') !! pretty issue_num =
        Some ("**Parent Epic:** #" +:+ pretty epic_num +:+ LF +:+ LF).
Proof.
  cbv zeta. intros _ Hview Hedit.
  destruct (update_issue_body_run answer issue_num epic_num (PyStr "")
              (World _ (external w) (printed w)
                 (calls w ++ [LinkChildToParent.view_call issue_num])))
    as (w' & Hrun & Hcalls & Hext).
  cbn [py_str external calls] in Hrun, Hcalls, Hext.
  rewrite append_empty in Hcalls, Hext. rewrite Hedit in Hext. cbn [Z.eqb] in Hext.
  eexists. exists w'. split_and!.
  - by apply get_issue_body_failed.
  - unfold LinkChildToParent.link_child.
    erewrite bind_return by (by apply get_issue_body_failed).
    exact Hrun.
  - rewrite Hcalls, <- app_assoc. reflexivity.
  - reflexivity.
  - rewrite Hext. cbn. apply lookup_insert_eq.
Qed.

Lemma failed_fetch_replaces_body_by_header_witness :
  let answer :=
    Samples.answer_from
      [ (argv (LinkChildToParent.view_call 12), Samples.failed "HTTP 502") ] in
  let w := @initial (Tracker.system answer) (Tracker.State {["12" := "Task list"]} ∅) in
  let edit := LinkChildToParent.edit_call 12 (LinkChildToParent.header 45) in
  ∃ w1 w',
    LinkChildToParent.get_issue_body (H := Samples.runtime) 12 w = (Return (PyStr ""), w1)
    ∧ LinkChildToParent.link_child (H := Samples.runtime) 45 12 w = (Return (), w')
    ∧ calls w' = (calls w ++ [LinkChildToParent.view_call 12; edit])%list
    ∧ input edit = Some ("**Parent Epic:** #" +:+ pretty 45 +:+ LF +:+ LF)
    ∧ Tracker.bodies (external w') !! pretty 12 =
        Some ("**Parent Epic:** #" +:+ pretty 45 +:+ LF +:+ LF).
Proof.
  cbv zeta.
  apply (failed_fetch_replaces_body_by_header (H := Samples.runtime)
           (Samples.answer_from
              [ (argv (LinkChildToParent.view_call 12), Samples.failed "HTTP 502") ])
           45 12 "Task list"); [reflexivity|discriminate|reflexivity].
Defined.

(** ** Invocations that all satisfy a property *)

Section Emits.
Context `{External}.
Import Coordinate.
Variable P : invocation → Prop.

Lemma emits_ret {A} (a : A) : emits P (mret a).
Proof. by intros w. Qed.

Lemma emits_raise {A} k msg : emits P (raise (A := A) k msg).
Proof. by intros w. Qed.

Lemma emits_print s : emits P (print s).
Proof. by intros w. Qed.

Lemma emits_run args stdin :
  P {| argv := args; input := stdin |} → emits P (subprocess_run args stdin).
Proof.
  intros HP w Hw. rewrite subprocess_run_run. cbn.
  apply Forall_app. split; [done|]. by apply Forall_singleton.
Qed.

Lemma emits_bind {A B} (m : M A) (f : A → M B) :
  emits P m → (∀ a, emits P (f a)) → emits P (m ≫= f).
Proof.
  intros Hm Hf w Hw. specialize (Hm w Hw).
  destruct (m w) as [[a|e] w'] eqn:E.
  - erewrite bind_return by exact E. by apply Hf.
  - erewrite bind_raise by exact E. exact Hm.
Qed.

Lemma emits_bind_ret {A B} (a : A) (f : A → M B) :
  emits P (f a) → emits P (mret a ≫= f).
Proof. intros Hf w Hw. exact (Hf w Hw). Qed.

Lemma emits_try {A} (m : M A) (h : exn → M A) :
  emits P m → (∀ e, emits P (h e)) → emits P (try_except m h).
Proof.
  intros Hm Hh w Hw. specialize (Hm w Hw).
  destruct (m w) as [[a|e] w'] eqn:E.
  - erewrite try_except_return by exact E. exact Hm.
  - erewrite try_except_raise by exact E. by apply Hh.
Qed.

Lemma emits_for_each {A} (l : list A) (body : A → M unit) :
  (∀ x, emits P (body x)) → emits P (for_each l body).
Proof.
  intros Hbody. induction l as [|x l IH]; cbn [for_each].
  - apply emits_ret.
  - apply emits_bind; [apply Hbody|]. by intros _.
Qed.

Lemma emits_fold_each {A S} (l : list A) (body : S → A → M S) :
  (∀ s x, emits P (body s x)) → ∀ s, emits P (fold_each l s body).
Proof.
  intros Hbody. induction l as [|x l IH]; intros s; cbn [fold_each].
  - apply emits_ret.
  - apply emits_bind; [apply Hbody|]. intros s'. apply IH.
Qed.

Lemma emits_initial {A} (m : M A) e : emits P m → Forall P (calls (m (initial e)).2).
Proof. intros Hm. apply Hm. constructor. Qed.

End Emits.

Ltac emits_step :=
  first
    [ apply emits_ret
    | apply emits_raise
    | apply emits_print
    | apply emits_run; first [ by left | by right ]
    | apply emits_bind; [|intros ?]
    | apply emits_try; [|intros ?]
    | apply emits_for_each; intros ?
    | apply emits_fold_each; intros ? ?
    | match goal with
      | |- Coordinate.emits _ (match ?x with _ => _ end) => destruct x
      end ].

(** ** The GraphQL linking pass against the tracker *)

Section Steady.
Context `{Runtime}.
Variable answers : nat → nat → invocation → CompletedProcess.
Hypothesis answers_repeat : ∀ i inv, answers 1%nat i inv = answers 0%nat i inv.
Import SubIssues.

Abbreviation T := (SubIssues.system answers).

Lemma replace_all_app rel l1 l2 :
  replace_all rel (l1 ++ l2) = replace_all (replace_all rel l1) l2.
Proof. apply foldl_app. Qed.

Lemma lookup_replace_all l : ∀ rel k,
  replace_all rel l !! k =
    match Tracker.final l k with
    | Some p => Some [p]
    | None => rel !! k
    end.
Proof.
  induction l as [|[c p] l IH]; intros rel k; [done|].
  change (replace_all rel ((c, p) :: l)) with (replace_all (<[c:=[p]]> rel) l).
  rewrite IH. cbn [Tracker.final]. destruct (Tracker.final l k); [done|].
  destruct (decide (k = c)) as [->|Hne].
  - apply lookup_insert_eq.
  - by apply lookup_insert_ne.
Qed.

(** Applying the same overwriting links a second time changes nothing. *)
Lemma replace_all_idempotent rel l : replace_all (replace_all rel l) l = replace_all rel l.
Proof.
  apply map_eq. intros k. rewrite !lookup_replace_all. by destruct (Tracker.final l k).
Qed.

(** A link request that carries [replaceParent=true] overwrites. *)
Lemma mutate_replaces inv rel :
  replaces inv → mutate inv rel = replace_all rel (pair_of inv).
Proof.
  intros Hrep. unfold mutate, pair_of.
  destruct (request inv) as [[[p c] flag]|] eqn:E; [|done].
  by rewrite (Hrep p c flag E).
Qed.

Lemma steady_ret {A} (a : A) : steady answers (mret a).
Proof.
  intros i. exists (Return a), [], 0%nat. intros w _ Hi. exists w.
  split_and!; [done|done|done|]. by rewrite Nat.add_0_r.
Qed.

Lemma steady_raise {A} k msg : steady answers (raise (A := A) k msg).
Proof.
  intros i. exists (Raise (Exn k msg)), [], 0%nat. intros w _ Hi. exists w.
  split_and!; [done|done|done|]. by rewrite Nat.add_0_r.
Qed.

Lemma steady_print s : steady answers (print s).
Proof.
  intros i. exists (Return ()), [], 0%nat. intros w _ Hi. eexists. rewrite print_run.
  split_and!; [done|done|done|]. cbn [external]. by rewrite Nat.add_0_r.
Qed.

Lemma steady_run args stdin :
  replaces {| argv := args; input := stdin |} → steady answers (subprocess_run args stdin).
Proof.
  set (inv := {| argv := args; input := stdin |}). intros Hrep i.
  exists (Return (answers 0%nat i inv)),
    (if Z.eqb (returncode (answers 0%nat i inv)) 0 then pair_of inv else []), 1%nat.
  intros w Hw Hi.
  assert (answers (run_number (external w)) (call_index (external w)) inv
          = answers 0%nat i inv) as E.
  { rewrite Hi. destruct (run_number (external w)) as [|[|n]];
      [done|apply answers_repeat|lia]. }
  eexists. rewrite subprocess_run_run. cbv zeta. fold inv.
  cbn [external gh T system step fst snd relation run_number call_index]. rewrite E.
  split_and!; [reflexivity| |reflexivity|cbn; lia].
  destruct (Z.eqb _ 0); [by apply mutate_replaces|done].
Qed.

Lemma steady_bind {A B} (m : @M T A) (f : A → @M T B) :
  steady answers m → (∀ a, steady answers (f a)) → steady answers (m ≫= f).
Proof.
  intros Hm Hf i. destruct (Hm i) as (o & l1 & n1 & Hmi). destruct o as [a|e].
  - destruct (Hf a (i + n1)%nat) as (o & l2 & n2 & Hfa).
    exists o, (l1 ++ l2), (n1 + n2)%nat. intros w Hw Hi.
    destruct (Hmi w Hw Hi) as (w1 & E1 & P1 & N1 & I1).
    destruct (Hfa w1) as (w2 & E2 & P2 & N2 & I2); [by rewrite N1|done|].
    exists w2. split_and!.
    + by erewrite bind_return.
    + by rewrite P2, P1, replace_all_app.
    + by rewrite N2.
    + rewrite I2. lia.
  - exists (Raise e), l1, n1. intros w Hw Hi.
    destruct (Hmi w Hw Hi) as (w1 & E1 & P1 & N1 & I1).
    exists w1. split_and!; [|done..]. by erewrite bind_raise.
Qed.

Lemma steady_for_each {A} (l : list A) (body : A → @M T unit) :
  (∀ x, steady answers (body x)) → steady answers (for_each l body).
Proof.
  intros Hbody. induction l as [|x l IH]; cbn [for_each].
  - apply steady_ret.
  - apply steady_bind; [apply Hbody|]. by intros _.
Qed.

Lemma steady_fold_each {A S} (l : list A) (body : S → A → @M T S) :
  (∀ s x, steady answers (body s x)) → ∀ s, steady answers (fold_each l s body).
Proof.
  intros Hbody. induction l as [|x l IH]; intros s; cbn [fold_each].
  - apply steady_ret.
  - apply steady_bind; [apply Hbody|]. intros s'. apply IH.
Qed.

End Steady.

Ltac steady_step :=
  first
    [ apply steady_ret
    | apply steady_raise
    | apply steady_print
    | apply steady_bind; [|intros ?]
    | apply steady_for_each; intros ?
    | apply steady_fold_each; intros ? ?
    | match goal with
      | |- SubIssues.steady _ (match ?x with _ => _ end) => destruct x
      end ].

Section GraphqlPass.
Context `{Runtime}.
Import LinkIssuesGraphql.

(** The id query asks for no link; the link call asks for one with
    [replaceParent=true]. *)
Lemma id_call_replaces issue_num : SubIssues.replaces (id_call issue_num).
Proof. intros p c flag E. discriminate E. Qed.

Lemma link_call_replaces parent_id sub_issue_id :
  SubIssues.replaces (link_call parent_id sub_issue_id).
Proof. intros p c flag E. cbv in E. by injection E as _ _ <-. Qed.

Section Answers.
Variable answers : nat → nat → invocation → CompletedProcess.
Hypothesis answers_repeat : ∀ i inv, answers 1%nat i inv = answers 0%nat i inv.

Lemma script_steady pm : SubIssues.steady answers (script pm).
Proof.
  unfold script, fetch_parents, fetch_children, link_all, link_children,
    get_issue_id, link_sub_issue, loads, getitem.
  repeat first
    [ apply steady_run; [assumption|apply id_call_replaces]
    | apply steady_run; [assumption|apply link_call_replaces]
    | steady_step; try assumption ].
Qed.

End Answers.

Lemma script_replaces `{External} pm : Coordinate.emits SubIssues.replaces (script pm).
Proof.
  unfold script, fetch_parents, fetch_children, link_all, link_children,
    get_issue_id, link_sub_issue, loads, getitem.
  repeat first
    [ apply emits_run; apply id_call_replaces
    | apply emits_run; apply link_call_replaces
    | emits_step ].
Qed.

End GraphqlPass.

(** C3 (as amended): run a second time over the same id map, the
    GraphQL linking pass leaves the sub-issue relation of the tracker
    as its first run left it, provided every call returns and the tool
    answers the calls of the second run as it answered those of the
    first, call by call.  The tracker performs the calls that exit with
    status 0; a link request with replaceParent=true leaves the child
    with the one parent named, one without the flag adds a parent.
    Every link request the pass makes carries replaceParent=true, and
    the second run ends with the same outcome as the first. *)
Theorem graphql_linking_pass_is_idempotent_when_answers_repeat `{Runtime}
    (answers : nat → nat → invocation → CompletedProcess) (pm : list (Z * list Z))
    (rel : gmap string (list string)) :
  (∀ i inv, answers 1%nat i inv = answers 0%nat i inv) →
  let pass := λ (k : nat) (rel : gmap string (list string)),
    LinkIssuesGraphql.script (H0 := SubIssues.system answers) pm
      (@initial (SubIssues.system answers) (SubIssues.State rel k 0)) in
  let once := SubIssues.relation (external (pass 0%nat rel).2) in
  let twice := SubIssues.relation (external (pass 1%nat once).2) in
  twice = once
  ∧ (pass 1%nat once).1 = (pass 0%nat rel).1
  ∧ Forall SubIssues.replaces (calls (pass 0%nat rel).2)
  ∧ Forall SubIssues.replaces (calls (pass 1%nat once).2).
Proof.
  intros Hrepeat. cbv beta zeta.
  destruct (script_steady answers Hrepeat pm 0%nat) as (o & l & n & Hrun).
  destruct (Hrun (@initial (SubIssues.system answers) (SubIssues.State rel 0 0)))
    as (w1 & E1 & P1 & _); [cbn; lia|done|].
  destruct (Hrun (@initial (SubIssues.system answers)
                    (SubIssues.State (SubIssues.relation (external w1)) 1 0)))
    as (w2 & E2 & P2 & _); [cbn; lia|done|].
  split_and!.
  - rewrite E1. cbn [snd]. rewrite E2. cbn [snd].
    rewrite P2. cbn [external initial SubIssues.relation]. rewrite P1.
    cbn [external initial SubIssues.relation]. apply replace_all_idempotent.
  - rewrite E1. cbn [snd]. by rewrite E2.
  - apply (emits_initial (H := SubIssues.system answers)), script_replaces.
  - apply (emits_initial (H := SubIssues.system answers)), script_replaces.
Qed.

Lemma graphql_linking_pass_is_idempotent_when_answers_repeat_witness :
  let answers := Samples.link_accepted in
  let pass := λ (k : nat) (rel : gmap string (list string)),
    LinkIssuesGraphql.script (H := Samples.runtime) (H0 := SubIssues.system answers)
      [(45, [12])]
      (@initial (SubIssues.system answers) (SubIssues.State rel k 0)) in
  let rel : gmap string (list string) := {["I_12" := ["I_44"]]} in
  let once := SubIssues.relation (external (pass 0%nat rel).2) in
  let twice := SubIssues.relation (external (pass 1%nat once).2) in
  (∀ i inv, answers 1%nat i inv = answers 0%nat i inv)
  ∧ once !! "I_12" = Some ["I_45"]
  ∧ twice = once
  ∧ (pass 1%nat once).1 = (pass 0%nat rel).1
  ∧ Forall SubIssues.replaces (calls (pass 0%nat rel).2)
  ∧ Forall SubIssues.replaces (calls (pass 1%nat once).2).
Proof.
  cbv zeta. split; [reflexivity|]. split; [by vm_compute|].
  apply (graphql_linking_pass_is_idempotent_when_answers_repeat (H := Samples.runtime)
           Samples.link_accepted [(45, [12])] {["I_12" := ["I_44"]]}).
  reflexivity.
Defined.

(** C3 (as stated) fails: over the map 45 → [12], with both ids
    resolved in both runs, a link call refused in the first run and
    accepted in the second leaves no parent for the child after one run
    and the parent 45 after two. *)
Lemma refused_link_is_made_by_second_run :
  let answers := Samples.link_refused_once in
  let pass := λ (k : nat) (rel : gmap string (list string)),
    LinkIssuesGraphql.script (H := Samples.runtime) (H0 := SubIssues.system answers)
      [(45, [12])]
      (@initial (SubIssues.system answers) (SubIssues.State rel k 0)) in
  let once := SubIssues.relation (external (pass 0%nat ∅).2) in
  let twice := SubIssues.relation (external (pass 1%nat once).2) in
  once !! "I_12" = None
  ∧ twice !! "I_12" = Some ["I_45"]
  ∧ twice ≠ once.
Proof.
  cbv zeta.
  assert (∀ a b : gmap string (list string),
            a !! "I_12" = None → b !! "I_12" = Some ["I_45"] → b ≠ a) as Hne.
  { intros a b Ha Hb ->. congruence. }
  split; [by vm_compute|]. split; [by vm_compute|].
  apply Hne; by vm_compute.
Qed.

(** Without replaceParent=true a repeated link request does not leave
    the relation as it was: the parent is there twice.  With the flag
    the repeated request changes nothing. *)
Example repeated_link_without_flag_duplicates :
  let without : invocation :=
    {| argv := [ "gh"; "api"; "graphql"; "-f"; "query=" +:+ LinkIssuesGraphql.mutation;
                 "-f"; "issueId=I_45"; "-f"; "subIssueId=I_12" ];
       input := None |} in
  let linked := LinkIssuesGraphql.link_call (H := Samples.runtime) (PyStr "I_45") (PyStr "I_12") in
  SubIssues.mutate without (SubIssues.mutate without ∅) !! "I_12" = Some ["I_45"; "I_45"]
  ∧ SubIssues.mutate without ∅ !! "I_12" = Some ["I_45"]
  ∧ SubIssues.mutate linked (SubIssues.mutate linked ∅) !! "I_12" = Some ["I_45"]
  ∧ SubIssues.mutate linked {["I_12" := ["I_44"]]} !! "I_12" = Some ["I_45"].
Proof. by vm_compute. Qed.

(** ** Which repository the scripts address *)

Section Repositories.
Context `{Runtime} `{External}.
Import Coordinate.

Lemma create_epics_emits epics :
  emits (within "goblinsan/vizail") (CreateEpics.script epics).
Proof.
  unfold CreateEpics.script, CreateEpics.create_epic, CreateEpics.add_label, loads, get,
    get_default.
  repeat emits_step.
Qed.

Lemma populate_emits details :
  emits (within "goblinsan/vizail") (PopulateIssueDescriptions.script details).
Proof.
  unfold PopulateIssueDescriptions.script, PopulateIssueDescriptions.update_issue_body.
  repeat emits_step.
Qed.

Lemma graphql_emits pm :
  emits (within "goblinsan/vizail") (LinkIssuesGraphql.script pm).
Proof.
  unfold LinkIssuesGraphql.script, LinkIssuesGraphql.fetch_parents,
    LinkIssuesGraphql.fetch_children, LinkIssuesGraphql.link_all,
    LinkIssuesGraphql.link_children, LinkIssuesGraphql.get_issue_id,
    LinkIssuesGraphql.link_sub_issue, loads, getitem.
  repeat emits_step.
Qed.

Lemma hierarchy_emits pm :
  emits (within "goblinsan/visual-flow") (LinkIssuesHierarchy.script pm).
Proof.
  unfold LinkIssuesHierarchy.script, LinkIssuesHierarchy.link_child.
  repeat emits_step.
Qed.

Lemma body_rewrite_emits pm :
  emits (λ inv, coordinate inv = None) (LinkChildToParent.script pm).
Proof.
  unfold LinkChildToParent.script, LinkChildToParent.link_child,
    LinkChildToParent.get_issue_body, LinkChildToParent.update_issue_body, loads,
    get_default.
  repeat first [ apply emits_run; reflexivity | emits_step ].
Qed.

Lemma find_milestone_emits P title ms :
  emits P (CreateGithubIssues.find_milestone title ms).
Proof.
  induction ms as [|m ms IH]; cbn [CreateGithubIssues.find_milestone];
    unfold get, get_default, getitem; repeat first [ exact IH | emits_step ].
Qed.

Lemma create_github_issues_emits bs :
  emits (within "goblinsan/visual-flow") (CreateGithubIssues.script bs).
Proof.
  unfold CreateGithubIssues.script, CreateGithubIssues.run_block,
    CreateGithubIssues.create_milestone, CreateGithubIssues.create_issue,
    CreateGithubIssues.add_label, CreateGithubIssues.py_iter, loads, get, get_default.
  repeat first
    [ apply find_milestone_emits
    | match goal with
      | |- context [truthy ?v] => destruct (truthy v)
      end
    | progress unfold CreateGithubIssues.run_gh
    | emits_step ].
Qed.

End Repositories.

(** C5 (as amended): each script keeps to one repository, but the
    scripts do not share it.  Every invocation of create_epics.py,
    populate_issue_descriptions.py and link_issues_graphql.py names
    goblinsan/vizail or no repository; every invocation of
    create_github_issues.py and link_issues_hierarchy.py names
    goblinsan/visual-flow or no repository; no invocation of
    link_child_to_parent.py names a repository.  This holds for every
    catalog, id map and behaviour of the external system. *)
Theorem each_script_keeps_to_one_repository `{Runtime} `{External} (e : ext) :
  (∀ epics,
     Forall (Coordinate.within "goblinsan/vizail")
       (calls (CreateEpics.script epics (initial e)).2)) ∧
  (∀ details,
     Forall (Coordinate.within "goblinsan/vizail")
       (calls (PopulateIssueDescriptions.script details (initial e)).2)) ∧
  (∀ pm,
     Forall (Coordinate.within "goblinsan/vizail")
       (calls (LinkIssuesGraphql.script pm (initial e)).2)) ∧
  (∀ bs,
     Forall (Coordinate.within "goblinsan/visual-flow")
       (calls (CreateGithubIssues.script bs (initial e)).2)) ∧
  (∀ pm,
     Forall (Coordinate.within "goblinsan/visual-flow")
       (calls (LinkIssuesHierarchy.script pm (initial e)).2)) ∧
  (∀ pm,
     Forall (λ inv, Coordinate.coordinate inv = None)
       (calls (LinkChildToParent.script pm (initial e)).2)).
Proof.
  split_and!; intros; apply emits_initial.
  - apply create_epics_emits.
  - apply populate_emits.
  - apply graphql_emits.
  - apply create_github_issues_emits.
  - apply hierarchy_emits.
  - apply body_rewrite_emits.
Qed.

(** C5 (as stated) fails: with every call failing, the first invocation
    of link_issues_graphql.py names goblinsan/vizail and the first
    invocation of link_issues_hierarchy.py names goblinsan/visual-flow,
    so the invocations of the scripts do not share one repository. *)
Lemma scripts_address_two_repositories :
  ¬ ∃ repo, ∀ inv,
      inv ∈ calls (LinkIssuesGraphql.script (H := Samples.runtime) phase_map (Samples.start [])).2
      ∨ inv ∈ calls (LinkIssuesHierarchy.script phase_map (Samples.start [])).2 →
      Coordinate.coordinate inv = Some repo.
Proof.
  intros [repo Hall].
  assert (Coordinate.coordinate (LinkIssuesGraphql.id_call 45) = Some repo) as H1.
  { apply Hall. left. apply (bool_decide_unpack _). by vm_compute. }
  assert (Coordinate.coordinate
            {| argv := [ "gh"; "api"; "/repos/goblinsan/visual-flow/issues/12";
                         "--method"; "PATCH";
                         "-f"; "parent_issue_url=https://api.github.com/repos/goblinsan/visual-flow/issues/45" ];
               input := None |} = Some repo) as H2.
  { apply Hall. right. apply (bool_decide_unpack _). by vm_compute. }
  vm_compute in H1, H2. congruence.
Qed.

(** ** What the creation driver writes into an issue body *)

Section IssueBody.
Context `{Runtime} `{External}.
Import CreateMilestonesAndIssues.

Lemma create_issue_emits G milestone_num epic_num title body :
  Coordinate.emits
    (λ inv, ∃ repo, G !! "REPO" = Some repo
                    ∧ inv = issue_call repo milestone_num epic_num title body)
    (create_issue G milestone_num epic_num title body).
Proof.
  unfold create_issue, load_global. cbv zeta.
  destruct (G !! "REPO") as [repo|] eqn:HG.
  - apply emits_bind_ret.
    unfold run_gh_command, loads, get, get_default.
    repeat first
      [ apply emits_run; by exists repo
      | match goal with
        | |- Coordinate.emits _ (if ?b then _ else _) => destruct b
        end
      | emits_step ].
  - repeat emits_step.
Qed.

End IssueBody.

(** C4 (as amended): in the example of the specification the body that
    create_issue builds for the issues "A" and "B" under epic 11 is the
    catalog body followed by a rule and the trailing reference "Part of
    Epic #11"; it does not contain "Parent Epic: #11".  Every invocation
    create_issue makes is the issue creation carrying exactly that body:
    the reference is in the body at creation time. *)
Theorem issue_body_ends_with_part_of_epic `{Runtime} `{External} :
  let epic := PyInt 11 in
  CreateMilestonesAndIssues.full_body "A" epic =
    "A" +:+ LF +:+ LF +:+ "---" +:+ LF +:+ LF +:+ "Part of Epic #11"
  ∧ CreateMilestonesAndIssues.full_body "B" epic =
      "B" +:+ LF +:+ LF +:+ "---" +:+ LF +:+ LF +:+ "Part of Epic #11"
  ∧ contains "Parent Epic: #11" (CreateMilestonesAndIssues.full_body "A" epic) = false
  ∧ contains "Parent Epic: #11" (CreateMilestonesAndIssues.full_body "B" epic) = false
  ∧ (∀ G milestone_num epic_num title body e,
       Forall
         (λ inv, ∃ repo,
            G !! "REPO" = Some repo
            ∧ inv = CreateMilestonesAndIssues.issue_call repo milestone_num epic_num title body)
         (calls (CreateMilestonesAndIssues.create_issue G milestone_num epic_num title body
                   (initial e)).2)).
Proof.
  cbv zeta. split_and!; try by vm_compute.
  intros. apply emits_initial, create_issue_emits.
Qed.

(** C4 (as stated) fails: in the example, with the milestone, epic and
    issue calls set to return the numbers 10, 11, 12 and 13, the run of
    main creates no issue whose body contains "Parent Epic: #11"; the
    body create_issue builds for "A" under epic 11 lacks that text, and
    so does the body the rewrite pass builds for it. *)
Lemma no_issue_body_contains_parent_epic_text :
  let w := (CreateMilestonesAndIssues.main (H := Samples.runtime)
              CreateMilestonesAndIssues.module_globals Samples.scenario
              (Samples.start Samples.scenario_outcomes)).2 in
  ¬ (∃ inv text, inv ∈ calls w ∧ text ∈ argv inv
                 ∧ contains "Parent Epic: #11" text = true)
  ∧ contains "Parent Epic: #11"
      (CreateMilestonesAndIssues.full_body (H := Samples.runtime) "A" (PyInt 11)) = false
  ∧ contains "Parent Epic: #11" (LinkChildToParent.header 11 +:+ "A") = false.
Proof.
  cbv zeta. split_and!; try by vm_compute.
  unfold Samples.scenario, Samples.start. rewrite main_raises. cbn [snd calls].
  intros (inv & text & Hin & _). by apply elem_of_nil in Hin.
Qed.

(** With the two names bound, the driver behaves as its guards are
    written: the example creates the milestone, the epic and the two
    issues with the bodies above, and a phase whose milestone cannot be
    created is reported and skipped while the next phase is handled. *)
Example driver_with_names_bound :
  let G := Samples.names_bound in
  let done := "✨ Done! All milestones, epics, and issues created." in
  let r1 := CreateMilestonesAndIssues.main (H := Samples.runtime) G Samples.scenario
              (Samples.start Samples.scenario_outcomes) in
  let r2 := CreateMilestonesAndIssues.main (H := Samples.runtime) G Samples.PHASES_excerpt
              (Samples.start
                 [ Samples.failed "HTTP 422"; Samples.ok (Samples.number_reply 10);
                   Samples.ok (Samples.number_reply 11);
                   Samples.ok (Samples.number_reply 12) ]) in
  r1.1 = Return () ∧ length (calls r1.2) = 4%nat
  ∧ calls r1.2 !! 2%nat =
      Some (CreateMilestonesAndIssues.issue_call (H := Samples.runtime)
              "goblinsan/visual-flow" (PyInt 10) (PyInt 11) "A" "A")
  ∧ calls r1.2 !! 3%nat =
      Some (CreateMilestonesAndIssues.issue_call (H := Samples.runtime)
              "goblinsan/visual-flow" (PyInt 10) (PyInt 11) "B" "B")
  ∧ r2.1 = Return () ∧ length (calls r2.2) = 4%nat
  ∧ "❌ Failed to create milestone for Phase 0: Prep & Hardening" ∈ printed r2.2
  ∧ "✅ Created issue #12: Set Up Cloudflare Infrastructure" ∈ printed r2.2
  ∧ done ∈ printed r1.2 ∧ done ∈ printed r2.2.
Proof.
  cbv zeta. split_and!; try (by vm_compute); apply (bool_decide_unpack _); by vm_compute.
Qed.

(** ** The string helpers on the texts of the scripts *)

Example py_replace_phase_name :
  py_replace "Phase " "" (py_replace "Phase X: " "" "Phase 0: Prep & Hardening")
  = "0: Prep & Hardening".
Proof. reflexivity. Qed.

Example py_prefix_counts_code_points :
  py_prefix 9 "🎯 Epic: Phase 0 - Prep & Hardening" = "🎯 Epic: P".
Proof. reflexivity. Qed.

Example coordinate_of_label_call :
  Coordinate.coordinate (CreateEpics.label_call (H := Samples.runtime) (PyInt 45) "epic") = None
  ∧ Coordinate.coordinate (CreateEpics.create_call "t" "b") = Some "goblinsan/vizail"
  ∧ Coordinate.coordinate (LinkIssuesGraphql.id_call 12) = Some "goblinsan/vizail"
  ∧ Coordinate.coordinate
      (LinkIssuesGraphql.link_call (H := Samples.runtime) (PyStr "I_45") (PyStr "I_12")) = None.
Proof. by vm_compute. Qed.


(** * Further properties of the scripts *)

(** ** Computations that return, and the invocations they make *)

Section Makes.
Context `{External}.

Lemma makes_ret {A} (a : A) : makes (mret a) [].
Proof. intros w. exists a, w. by rewrite app_nil_r. Qed.

Lemma makes_print s : makes (print s) [].
Proof. intros w. eexists _, _. rewrite print_run. by rewrite app_nil_r. Qed.

Lemma makes_run args stdin :
  makes (subprocess_run args stdin) [{| argv := args; input := stdin |}].
Proof. intros w. eexists _, _. by rewrite subprocess_run_run. Qed.

Lemma makes_bind {A B} (m : M A) (f : A → M B) l1 l2 :
  makes m l1 → (∀ a, makes (f a) l2) → makes (m ≫= f) (l1 ++ l2).
Proof.
  intros Hm Hf w. destruct (Hm w) as (a & w1 & E1 & C1).
  destruct (Hf a w1) as (b & w2 & E2 & C2).
  exists b, w2. split; [by erewrite bind_return|].
  by rewrite C2, C1, <- app_assoc.
Qed.

Lemma makes_bind_then {A B} (m : M A) (f : A → M B) l :
  makes m [] → (∀ a, makes (f a) l) → makes (m ≫= f) l.
Proof. intros Hm Hf. change l with ([] ++ l). by apply makes_bind. Qed.

Lemma makes_for_each {A} (l : list A) (body : A → M unit) (invs : A → list invocation) :
  (∀ x, x ∈ l → makes (body x) (invs x)) → makes (for_each l body) (l ≫= invs).
Proof.
  induction l as [|x l IH]; intros Hbody; cbn [for_each].
  - apply makes_ret.
  - change ((x :: l) ≫= invs) with (invs x ++ (l ≫= invs)).
    apply makes_bind; [apply Hbody; by left|].
    intros _. apply IH. intros y Hy. apply Hbody. by right.
Qed.

(** A computation followed by a last [print]. *)
Lemma makes_then_print {A} (m : M A) l s w :
  makes m l →
  ∃ w', (m;; print s) w = (Return (), w')
        ∧ calls w' = calls w ++ l ∧ last (printed w') = Some s.
Proof.
  intros Hm. destruct (Hm w) as (a & w1 & E1 & C1).
  eexists. split; [|split].
  - erewrite bind_return by exact E1. apply print_run.
  - exact C1.
  - cbn [printed]. apply last_snoc.
Qed.

Lemma makes_then_print_initial {A} (m : M A) l s e :
  makes m l →
  ∃ w', (m;; print s) (initial e) = (Return (), w')
        ∧ calls w' = l ∧ last (printed w') = Some s.
Proof. intros Hm. exact (makes_then_print m l s (initial e) Hm). Qed.

End Makes.

(** ** A map that fixes every element of a list *)

Section Populate.
Context `{Runtime} `{External}.
Import PopulateIssueDescriptions.

Lemma fmap_fixed {A} (g : A → A) (l : list A) :
  (∀ x, x ∈ l → g x = x) → g <$> l = l.
Proof.
  induction l as [|x l IH]; intros Hg; [done|]. cbn.
  rewrite Hg by (by left). rewrite IH; [done|]. intros y Hy. apply Hg. by right.
Qed.

End Populate.

(** ** scripts/link_child_to_parent.py: what is fetched and what is written *)

Section Rewrite.
Context `{Runtime} `{External}.
Import LinkChildToParent.

Lemma update_issue_body_makes issue_num parent_epic body :
  makes (update_issue_body issue_num parent_epic body)
    [edit_call issue_num (header parent_epic +:+ py_str body)].
Proof.
  unfold update_issue_body. cbv zeta.
  change [edit_call issue_num (header parent_epic +:+ py_str body)]
    with ([edit_call issue_num (header parent_epic +:+ py_str body)] ++ []).
  apply makes_bind; [apply makes_run|].
  intros r. destruct (Z.eqb _ _); apply makes_print.
Qed.

Lemma get_issue_body_run issue_num w :
  get_issue_body issue_num w =
    let r := (gh (external w) (view_call issue_num)).1 in
    let w1 := World _ (gh (external w) (view_call issue_num)).2 (printed w)
                (calls w ++ [view_call issue_num]) in
    if Z.eqb (returncode r) 0
    then (data ← loads (stdout r); get_default data "body" (PyStr "")) w1
    else (Return (PyStr ""), w1).
Proof.
  unfold get_issue_body.
  erewrite bind_return by apply subprocess_run_run.
  cbv zeta. fold (view_call issue_num). by destruct (Z.eqb _ _).
Qed.

Lemma link_child_fetch_failed epic_num issue_num :
  (∀ e, returncode (gh e (view_call issue_num)).1 ≠ 0) →
  makes (link_child epic_num issue_num)
    [view_call issue_num; edit_call issue_num (header epic_num)].
Proof.
  intros Hfail w. unfold link_child.
  erewrite bind_return; last first.
  { rewrite get_issue_body_run. cbv zeta.
    specialize (Hfail (external w)). apply Z.eqb_neq in Hfail. rewrite Hfail. reflexivity. }
  destruct (update_issue_body_makes issue_num epic_num (PyStr "")
              (World _ (gh (external w) (view_call issue_num)).2 (printed w)
                 (calls w ++ [view_call issue_num]))) as (a & w' & E & C).
  exists a, w'. split; [exact E|].
  rewrite C. cbn [calls py_str]. rewrite append_empty, <- app_assoc. reflexivity.
Qed.

End Rewrite.

(** X3: when no body can be fetched, link_child_to_parent.py still edits
    every child.  If the view call fails for every issue, the script
    returns normally and its invocations are, for each child in the order
    of the map, the view call followed by an edit call whose text is the
    parent header alone; the last line it prints is the summary. *)
Theorem failed_fetches_reduce_every_body_to_header `{Runtime} `{External}
    (pm : list (Z * list Z)) (e : ext) :
  (∀ e' n, returncode (gh e' (LinkChildToParent.view_call n)).1 ≠ 0) →
  ∃ w',
    LinkChildToParent.script pm (initial e) = (Return (), w')
    ∧ calls w' =
        pm ≫= (λ '(epic_num, children),
                 children ≫= λ n,
                   [ LinkChildToParent.view_call n;
                     LinkChildToParent.edit_call n (LinkChildToParent.header epic_num) ])
    ∧ last (printed w') = Some LinkChildToParent.summary.
Proof.
  intros Hfail. unfold LinkChildToParent.script.
  apply makes_then_print_initial. apply makes_for_each.
  intros [epic_num children] _.
  apply makes_bind_then; [apply makes_print|]. intros _.
  apply makes_for_each. intros n _.
  apply link_child_fetch_failed. intros e'. apply Hfail.
Qed.

Lemma failed_fetches_reduce_every_body_to_header_witness :
  ∃ w',
    LinkChildToParent.script (H := Samples.runtime) (H0 := Samples.unreachable)
      phase_map (@initial Samples.unreachable ()) = (Return (), w')
    ∧ calls w' =
        phase_map ≫= (λ '(epic_num, children),
                 children ≫= λ n,
                   [ LinkChildToParent.view_call n;
                     LinkChildToParent.edit_call n (LinkChildToParent.header epic_num) ])
    ∧ last (printed w') = Some LinkChildToParent.summary.
Proof.
  apply (failed_fetches_reduce_every_body_to_header (H := Samples.runtime)
           (H0 := Samples.unreachable) phase_map ()).
  intros e' n. cbn. discriminate.
Defined.

(** X4: the text written for a child is the header followed by str() of
    whatever the fetched object holds under "body".  When the view call
    exits with 0 and parses to an object, the pass makes the view call
    and one edit call with that text: an object whose body is null gives
    the header followed by the word None, and an object without a body
    gives the header alone. *)
Theorem fetched_body_is_written_as_text `{Runtime} `{External}
    (epic_num issue_num : Z) (kv : list (string * pyval)) (w : world) :
  let view := LinkChildToParent.view_call issue_num in
  let edit := λ text, LinkChildToParent.edit_call issue_num
                        (LinkChildToParent.header epic_num +:+ text) in
  returncode (gh (external w) view).1 = 0 →
  json_loads (stdout (gh (external w) view).1) = inr (PyDict kv) →
  ∃ w',
    LinkChildToParent.link_child epic_num issue_num w = (Return (), w')
    ∧ calls w' =
        calls w ++ [view; edit (py_str (default (PyStr "") (assoc_last "body" kv)))]
    ∧ (assoc_last "body" kv = Some PyNone → calls w' = calls w ++ [view; edit "None"])
    ∧ (assoc_last "body" kv = None → calls w' = calls w ++ [view; edit ""]).
Proof.
  cbv zeta. intros Hcode Hparse.
  destruct (update_issue_body_makes issue_num epic_num
              (default (PyStr "") (assoc_last "body" kv))
              (World _ (gh (external w) (LinkChildToParent.view_call issue_num)).2 (printed w)
                 (calls w ++ [LinkChildToParent.view_call issue_num]))) as ([] & w' & E & C).
  cbn [calls] in C. rewrite <- app_assoc in C. cbn [app] in C.
  exists w'. split_and!.
  - unfold LinkChildToParent.link_child.
    erewrite bind_return; [exact E|].
    rewrite get_issue_body_run. cbv zeta. rewrite Hcode. cbn [Z.eqb].
    erewrite bind_return; last first.
    { unfold loads. rewrite Hparse. reflexivity. }
    cbn [get_default]. by destruct (assoc_last "body" kv).
  - exact C.
  - intros Hnull. by rewrite C, Hnull.
  - intros Hnone. by rewrite C, Hnone.
Qed.

Lemma fetched_body_is_written_as_text_witness :
  let reply := "{" +:+ DQ +:+ "body" +:+ DQ +:+ ":null}" in
  let rt := Samples.runtime_of [(reply, PyDict [("body", PyNone)])] in
  let w := Samples.start [Samples.ok reply] in
  ∃ w',
    LinkChildToParent.link_child (H := rt) 45 12 w = (Return (), w')
    ∧ calls w' =
        [ LinkChildToParent.view_call 12;
          LinkChildToParent.edit_call 12 (LinkChildToParent.header 45 +:+ "None") ].
Proof.
  cbv zeta.
  destruct (fetched_body_is_written_as_text
              (H := Samples.runtime_of
                      [("{" +:+ DQ +:+ "body" +:+ DQ +:+ ":null}", PyDict [("body", PyNone)])])
              (H0 := Samples.playback) 45 12 [("body", PyNone)]
              (Samples.start [Samples.ok ("{" +:+ DQ +:+ "body" +:+ DQ +:+ ":null}")])
              eq_refl eq_refl) as (w' & E & _ & Hnull & _).
  exists w'. split; [exact E|]. exact (Hnull eq_refl).
Defined.

(** X5: a reply that is not a JSON object ends the body-rewrite pass
    before any edit.  When the view call exits with 0, link_child raises
    JSONDecodeError if the output does not parse and AttributeError if it
    parses to anything but an object; in both cases the view call is the
    only invocation made for that child. *)
Theorem non_object_reply_stops_body_rewrite `{Runtime} `{External}
    (epic_num issue_num : Z) (w : world) :
  let view := LinkChildToParent.view_call issue_num in
  let w1 := World _ (gh (external w) view).2 (printed w) (calls w ++ [view]) in
  returncode (gh (external w) view).1 = 0 →
  match json_loads (stdout (gh (external w) view).1) with
  | inl msg =>
      LinkChildToParent.link_child epic_num issue_num w = (Raise (Exn JSONDecodeError msg), w1)
  | inr (PyDict _) => True
  | inr v =>
      LinkChildToParent.link_child epic_num issue_num w =
        (Raise (Exn AttributeError
                  (SQ +:+ type_name v +:+ "' object has no attribute 'get'")), w1)
  end.
Proof.
  cbv zeta. intros Hcode.
  destruct (json_loads _) as [msg|v] eqn:Hparse.
  - unfold LinkChildToParent.link_child.
    erewrite bind_raise; [reflexivity|].
    rewrite get_issue_body_run. cbv zeta. rewrite Hcode. cbn [Z.eqb].
    erewrite bind_raise; [reflexivity|].
    unfold loads. rewrite Hparse. reflexivity.
  - destruct v; try exact I;
      unfold LinkChildToParent.link_child;
      (erewrite bind_raise; [reflexivity|]);
      rewrite get_issue_body_run; cbv zeta; rewrite Hcode; cbn [Z.eqb];
      (erewrite bind_return by (unfold loads; rewrite Hparse; reflexivity));
      reflexivity.
Qed.

Lemma non_object_reply_stops_body_rewrite_witness :
  let rt := Samples.runtime_of [("[]", PyList [])] in
  LinkChildToParent.link_child (H := rt) 45 12 (Samples.start [Samples.ok "[]"]) =
    (Raise (Exn AttributeError "'list' object has no attribute 'get'"),
     World Samples.playback [] [] [LinkChildToParent.view_call 12]).
Proof.
  exact (non_object_reply_stops_body_rewrite (H := Samples.runtime_of [("[]", PyList [])])
           (H0 := Samples.playback) 45 12 (Samples.start [Samples.ok "[]"]) eq_refl).
Defined.

(** ** scripts/link_issues_graphql.py: resolving ids and linking *)

Section GraphqlIds.
Context `{Runtime} `{External}.
Import LinkIssuesGraphql.

Lemma get_issue_id_run issue_num w :
  get_issue_id issue_num w =
    let r := (gh (external w) (id_call issue_num)).1 in
    let w1 := World _ (gh (external w) (id_call issue_num)).2 (printed w)
                (calls w ++ [id_call issue_num]) in
    if Z.eqb (returncode r) 0
    then (data ← loads (stdout r);
          d ← getitem data "data";
          r ← getitem d "repository";
          i ← getitem r "issue";
          getitem i "id") w1
    else (Return PyNone, w1).
Proof.
  unfold get_issue_id. cbv zeta.
  erewrite bind_return by apply subprocess_run_run.
  cbv zeta. fold (id_call issue_num). by destruct (Z.eqb _ _).
Qed.

End GraphqlIds.

(** X6: get_issue_id returns the id only from a fully formed reply.
    When the query exits with 0 and its output parses to an object with
    data.repository, the function returns data.repository.issue.id if
    the issue is an object with an id; if the issue is null, as for a
    number the repository does not have, it raises TypeError instead of
    returning no id.  Either way it has made exactly the one query. *)
Theorem get_issue_id_reads_nested_id `{Runtime} `{External}
    (issue_num : Z) (w : world) (top data repo : list (string * pyval)) :
  let query := LinkIssuesGraphql.id_call issue_num in
  let w1 := World _ (gh (external w) query).2 (printed w) (calls w ++ [query]) in
  returncode (gh (external w) query).1 = 0 →
  json_loads (stdout (gh (external w) query).1) = inr (PyDict top) →
  assoc_last "data" top = Some (PyDict data) →
  assoc_last "repository" data = Some (PyDict repo) →
  (∀ issue id,
     assoc_last "issue" repo = Some (PyDict issue) →
     assoc_last "id" issue = Some id →
     LinkIssuesGraphql.get_issue_id issue_num w = (Return id, w1)) ∧
  (assoc_last "issue" repo = Some PyNone →
   LinkIssuesGraphql.get_issue_id issue_num w =
     (Raise (Exn TypeError "'NoneType' object is not subscriptable"), w1)).
Proof.
  cbv zeta. intros Hcode Hparse Hdata Hrepo. split.
  - intros issue id Hissue Hid.
    rewrite get_issue_id_run. cbv zeta. rewrite Hcode. cbn [Z.eqb].
    erewrite bind_return by (unfold loads; rewrite Hparse; reflexivity).
    erewrite bind_return by (cbn [getitem]; rewrite Hdata; reflexivity).
    erewrite bind_return by (cbn [getitem]; rewrite Hrepo; reflexivity).
    erewrite bind_return by (cbn [getitem]; rewrite Hissue; reflexivity).
    cbn [getitem]. rewrite Hid. reflexivity.
  - intros Hissue.
    rewrite get_issue_id_run. cbv zeta. rewrite Hcode. cbn [Z.eqb].
    erewrite bind_return by (unfold loads; rewrite Hparse; reflexivity).
    erewrite bind_return by (cbn [getitem]; rewrite Hdata; reflexivity).
    erewrite bind_return by (cbn [getitem]; rewrite Hrepo; reflexivity).
    erewrite bind_return by (cbn [getitem]; rewrite Hissue; reflexivity).
    reflexivity.
Qed.

Lemma get_issue_id_reads_nested_id_witness :
  let reply := "{" +:+ DQ +:+ "data" +:+ DQ +:+ ":{" +:+ DQ +:+ "repository" +:+ DQ +:+ ":{"
                 +:+ DQ +:+ "issue" +:+ DQ +:+ ":null}}}" in
  let value := PyDict [("data", PyDict [("repository", PyDict [("issue", PyNone)])])] in
  let rt := Samples.runtime_of [(reply, value)] in
  LinkIssuesGraphql.get_issue_id (H := rt) 99 (Samples.start [Samples.ok reply]) =
    (Raise (Exn TypeError "'NoneType' object is not subscriptable"),
     World Samples.playback [] [] [LinkIssuesGraphql.id_call 99]).
Proof.
  cbv zeta.
  exact (proj2
           (get_issue_id_reads_nested_id
              (H := Samples.runtime_of
                      [("{" +:+ DQ +:+ "data" +:+ DQ +:+ ":{" +:+ DQ +:+ "repository" +:+ DQ
                          +:+ ":{" +:+ DQ +:+ "issue" +:+ DQ +:+ ":null}}}",
                        PyDict [("data", PyDict [("repository", PyDict [("issue", PyNone)])])])])
              (H0 := Samples.playback) 99
              (Samples.start
                 [Samples.ok ("{" +:+ DQ +:+ "data" +:+ DQ +:+ ":{" +:+ DQ +:+ "repository"
                                +:+ DQ +:+ ":{" +:+ DQ +:+ "issue" +:+ DQ +:+ ":null}}}")])
              [("data", PyDict [("repository", PyDict [("issue", PyNone)])])]
              [("repository", PyDict [("issue", PyNone)])]
              [("issue", PyNone)]
              eq_refl eq_refl eq_refl eq_refl)
           eq_refl).
Defined.

Section GraphqlFailures.
Context `{Runtime} `{External}.
Import LinkIssuesGraphql.

Hypothesis queries_fail : ∀ e n, returncode (gh e (id_call n)).1 ≠ 0.

Lemma get_issue_id_failed issue_num w :
  get_issue_id issue_num w =
    (Return PyNone,
     World _ (gh (external w) (id_call issue_num)).2 (printed w)
       (calls w ++ [id_call issue_num])).
Proof.
  rewrite get_issue_id_run. cbv zeta.
  specialize (queries_fail (external w) issue_num).
  apply Z.eqb_neq in queries_fail. by rewrite queries_fail.
Qed.

Lemma unresolved_insert issue_ids k :
  unresolved issue_ids → unresolved (<[k := PyNone]> issue_ids).
Proof.
  intros Hids k' v. destruct (decide (k = k')) as [->|Hne].
  - rewrite lookup_insert_eq. congruence.
  - rewrite lookup_insert_ne by done. apply Hids.
Qed.

Lemma unresolved_get issue_ids k : unresolved issue_ids → ids_get issue_ids k = PyNone.
Proof.
  intros Hids. unfold ids_get. destruct (issue_ids !! k) as [v|] eqn:E; [|done].
  cbn. by apply Hids in E.
Qed.

Lemma fold_each_keeps {A S} (I : S → Prop) (l : list A) (body : S → A → M S) :
  (∀ s x w, I s → Forall is_id_call (calls w) →
     ∃ s' w', body s x w = (Return s', w') ∧ I s' ∧ Forall is_id_call (calls w')) →
  ∀ s w, I s → Forall is_id_call (calls w) →
    ∃ s' w', fold_each l s body w = (Return s', w') ∧ I s' ∧ Forall is_id_call (calls w').
Proof.
  intros Hbody. induction l as [|x l IH]; intros s w Hs Hw; cbn [fold_each].
  - by exists s, w.
  - destruct (Hbody s x w Hs Hw) as (s1 & w1 & E1 & Hs1 & Hw1).
    destruct (IH s1 w1 Hs1 Hw1) as (s2 & w2 & E2 & Hs2 & Hw2).
    exists s2, w2. split; [|done]. by erewrite bind_return.
Qed.

Lemma id_call_added w n :
  Forall is_id_call (calls w) → Forall is_id_call (calls w ++ [id_call n]).
Proof. intros Hw. apply Forall_app. split; [done|]. apply Forall_singleton. by exists n. Qed.

Lemma fetch_parents_unresolved pm issue_ids w :
  unresolved issue_ids → Forall is_id_call (calls w) →
  ∃ ids' w', fetch_parents pm issue_ids w = (Return ids', w')
             ∧ unresolved ids' ∧ Forall is_id_call (calls w').
Proof.
  unfold fetch_parents. apply fold_each_keeps. clear issue_ids w.
  intros issue_ids epic_num w Hids Hw.
  eexists _, _. split; [|split].
  - erewrite bind_return by apply get_issue_id_failed.
    erewrite bind_return by apply print_run. reflexivity.
  - by apply unresolved_insert.
  - cbn [calls]. by apply id_call_added.
Qed.

Lemma fetch_children_unresolved pm issue_ids w :
  unresolved issue_ids → Forall is_id_call (calls w) →
  ∃ ids' w', fetch_children pm issue_ids w = (Return ids', w')
             ∧ unresolved ids' ∧ Forall is_id_call (calls w').
Proof.
  unfold fetch_children. apply fold_each_keeps. clear issue_ids w.
  intros issue_ids child_nums w. apply fold_each_keeps. clear issue_ids w.
  intros issue_ids child_num w Hids Hw.
  destruct (issue_ids !! child_num) eqn:E.
  - by exists issue_ids, w.
  - eexists _, _. split; [|split].
    + erewrite bind_return by apply get_issue_id_failed. reflexivity.
    + by apply unresolved_insert.
    + cbn [calls]. by apply id_call_added.
Qed.

Lemma link_all_unresolved pm issue_ids w :
  unresolved issue_ids →
  link_all pm issue_ids w =
    (Return (),
     World _ (external w)
       (printed w ++ ((λ '(epic_num, _), "❌ Could not get ID for epic #" +:+ pretty epic_num)
                        <$> pm))
       (calls w)).
Proof.
  intros Hids. unfold link_all. revert w.
  induction pm as [|[epic_num children] pm IH]; intros w; cbn [for_each].
  - cbn. rewrite app_nil_r. by destruct w.
  - rewrite (unresolved_get _ _ Hids). cbn [truthy negb].
    erewrite bind_return by apply print_run.
    rewrite IH. cbn. by rewrite <- app_assoc.
Qed.

End GraphqlFailures.

(** X7: when no id can be resolved, link_issues_graphql.py links nothing
    and still announces success.  If every id query exits with a
    non-zero status, the script returns normally, every invocation it
    makes is an id query (no link is attempted), and its output ends
    with one "Could not get ID" line per epic of the map followed by the
    summary line that says all child issues were linked. *)
Theorem unresolved_ids_link_nothing `{Runtime} `{External}
    (pm : list (Z * list Z)) (e : ext) :
  (∀ e' n, returncode (gh e' (LinkIssuesGraphql.id_call n)).1 ≠ 0) →
  ∃ w' log,
    LinkIssuesGraphql.script pm (initial e) = (Return (), w')
    ∧ Forall (λ inv, ∃ n, inv = LinkIssuesGraphql.id_call n) (calls w')
    ∧ printed w' =
        log ++ ((λ '(epic_num, _), "❌ Could not get ID for epic #" +:+ pretty epic_num) <$> pm)
            ++ [LF +:+ "✅ All child issues linked to parent epics!"].
Proof.
  intros Hfail. unfold LinkIssuesGraphql.script.
  erewrite bind_return by apply print_run.
  edestruct (fetch_parents_unresolved Hfail pm ∅) as (ids1 & w1 & E1 & I1 & C1);
    [intros k v Hk; by rewrite lookup_empty in Hk | | ].
  2: { erewrite bind_return by exact E1.
       destruct (fetch_children_unresolved Hfail pm ids1 w1 I1 C1) as (ids2 & w2 & E2 & I2 & C2).
       erewrite bind_return by exact E2.
       erewrite bind_return by apply print_run.
       erewrite bind_return by (by apply link_all_unresolved).
       rewrite print_run. eexists _, _. split; [reflexivity|]. split.
       - exact C2.
       - cbn [printed]. rewrite <- app_assoc. reflexivity. }
  constructor.
Qed.

Lemma unresolved_ids_link_nothing_witness :
  ∃ w' log,
    LinkIssuesGraphql.script (H := Samples.runtime) (H0 := Samples.unreachable)
      phase_map (@initial Samples.unreachable ()) = (Return (), w')
    ∧ Forall (λ inv, ∃ n, inv = LinkIssuesGraphql.id_call n) (calls w')
    ∧ printed w' =
        log ++ ((λ '(epic_num, _), "❌ Could not get ID for epic #" +:+ pretty epic_num)
                  <$> phase_map)
            ++ [LF +:+ "✅ All child issues linked to parent epics!"].
Proof.
  apply (unresolved_ids_link_nothing (H := Samples.runtime) (H0 := Samples.unreachable)
           phase_map ()).
  intros e' n. cbn. discriminate.
Defined.

(** X9: an issue number that is already in the id table is not queried
    again.  If every child of the map already has an entry in the table
    (whatever the entry holds), fetch_children makes no invocation,
    prints nothing and returns the table as it was. *)
Theorem fetch_children_skips_known_numbers `{Runtime} `{External}
    (pm : list (Z * list Z)) (issue_ids : gmap Z pyval) (w : world) :
  (∀ children child_num,
     children ∈ pm.*2 → child_num ∈ children → is_Some (issue_ids !! child_num)) →
  LinkIssuesGraphql.fetch_children pm issue_ids w = (Return issue_ids, w).
Proof.
  unfold LinkIssuesGraphql.fetch_children. generalize (pm.*2). clear pm.
  intros groups Hknown. induction groups as [|children groups IH]; [done|].
  cbn [fold_each].
  erewrite bind_return; [apply IH|].
  - intros cs c Hcs Hc. apply (Hknown cs c); [by right|done].
  - assert (∀ c, c ∈ children → is_Some (issue_ids !! c)) as Hcs
      by (intros c Hc; apply (Hknown children c); [by left|done]).
    clear Hknown IH. induction children as [|c children IH]; [done|].
    cbn [fold_each]. destruct (Hcs c) as [v Hv]; [by left|]. rewrite Hv.
    erewrite bind_return by reflexivity.
    apply IH. intros c' Hc'. apply Hcs. by right.
Qed.

Lemma fetch_children_skips_known_numbers_witness :
  let ids : gmap Z pyval := <[45 := PyStr "I_45"]> (<[12 := PyNone]> ∅) in
  LinkIssuesGraphql.fetch_children (H := Samples.runtime) [(45, [12; 45])] ids
    (Samples.start [Samples.ok (Samples.id_reply "I_12")]) =
  (Return ids, Samples.start [Samples.ok (Samples.id_reply "I_12")]).
Proof.
  cbv zeta.
  apply (fetch_children_skips_known_numbers (H := Samples.runtime) (H0 := Samples.playback)).
  intros children c Hcs Hc.
  apply list_elem_of_singleton in Hcs as ->.
  apply elem_of_cons in Hc as [->|Hc]; [by eexists|].
  apply list_elem_of_singleton in Hc as ->. by eexists.
Defined.

(** ** scripts/create_epics.py: the creation call and the labels *)

Section Epics.
Context `{Runtime} `{External}.
Import CreateEpics.

(** What [create_epic] does after its creation call has answered [r]. *)
Lemma create_epic_run title body labels w :
  create_epic title body labels w =
    let r := (gh (external w) (create_call title body)).1 in
    let w1 := World _ (gh (external w) (create_call title body)).2 (printed w)
                (calls w ++ [create_call title body]) in
    if negb (Z.eqb (returncode r) 0)
    then (Return PyNone,
          World _ (external w1)
            (printed w ++ ["  ❌ " +:+ title +:+ ": " +:+ py_prefix 80 (stderr r)]) (calls w1))
    else
      try_except
        (data ← loads (stdout r);
         num ← get data "number";
         print ("  ✅ Epic #" +:+ py_str num +:+ ": " +:+ py_prefix 40 title);;
         for_each labels (add_label num);;
         mret num)
        (λ e, print ("  ❌ Parse error: " +:+ message e);; mret PyNone) w1.
Proof.
  unfold create_epic.
  erewrite bind_return by apply subprocess_run_run.
  cbv zeta. fold (create_call title body).
  destruct (negb _); [|reflexivity].
  erewrite bind_return by apply print_run. reflexivity.
Qed.

End Epics.

(** X10: a failed creation adds no label.  When the creation call of
    create_epic (create_epics.py) exits with a non-zero status, or exits
    with 0 but its output does not parse or parses to something that is
    not an object, the function returns None, prints one line, and the
    creation call is the only invocation it has made. *)
Theorem failed_epic_creation_adds_no_label `{Runtime} `{External}
    (title body : string) (labels : list string) (w : world) :
  let create := CreateEpics.create_call title body in
  let r := (gh (external w) create).1 in
  returncode r ≠ 0
  ∨ (∃ msg, json_loads (stdout r) = inl msg)
  ∨ (∃ v, json_loads (stdout r) = inr v ∧ ∀ kv, v ≠ PyDict kv) →
  ∃ w' line,
    CreateEpics.create_epic title body labels w = (Return PyNone, w')
    ∧ calls w' = calls w ++ [create]
    ∧ printed w' = printed w ++ [line].
Proof.
  cbv zeta. intros Hfail. rewrite create_epic_run. cbv zeta.
  destruct (Z.eqb _ 0) eqn:Hcode; cbn [negb].
  2: { eexists _, _. split_and!; reflexivity. }
  destruct Hfail as [Hne|[[msg Hparse]|(v & Hparse & Hv)]].
  - by apply Z.eqb_eq in Hcode.
  - eexists _, _. split.
    { erewrite try_except_raise; last first.
      { erewrite bind_raise; [reflexivity|]. unfold loads. rewrite Hparse. reflexivity. }
      erewrite bind_return by apply print_run. reflexivity. }
    split; reflexivity.
  - destruct v; try (by destruct (Hv kv));
      (eexists _, _; split;
       [ erewrite try_except_raise;
         [ erewrite bind_return by apply print_run; reflexivity
         | erewrite bind_return by (unfold loads; rewrite Hparse; reflexivity);
           erewrite bind_raise; reflexivity ]
       | split; reflexivity ]).
Qed.

Lemma failed_epic_creation_adds_no_label_witness :
  let title := "🎯 Epic: Phase 0 - Prep & Hardening" in
  ∃ w' line,
    CreateEpics.create_epic (H := Samples.runtime) title "# Phase 0: Prep & Hardening"
      ["epic"; "phase-0"] (Samples.start [Samples.failed "HTTP 401"]) = (Return PyNone, w')
    ∧ calls w' = [] ++ [CreateEpics.create_call title "# Phase 0: Prep & Hardening"]
    ∧ printed w' = [] ++ [line].
Proof.
  cbv zeta.
  apply (failed_epic_creation_adds_no_label (H := Samples.runtime) (H0 := Samples.playback)
           "🎯 Epic: Phase 0 - Prep & Hardening" "# Phase 0: Prep & Hardening"
           ["epic"; "phase-0"] (Samples.start [Samples.failed "HTTP 401"])).
  left. cbn. discriminate.
Defined.

(** X11: an object without a number still gets its labels sent.  When
    the creation call of create_epic exits with 0 and its output parses
    to an object that has no "number" (or a null one), the function
    returns None and yet makes one label call per label, each addressed
    to the issue named "None". *)
Theorem epic_without_number_labels_issue_none `{Runtime} `{External}
    (title body : string) (labels : list string) (w : world)
    (kv : list (string * pyval)) :
  let create := CreateEpics.create_call title body in
  returncode (gh (external w) create).1 = 0 →
  json_loads (stdout (gh (external w) create).1) = inr (PyDict kv) →
  default PyNone (assoc_last "number" kv) = PyNone →
  ∃ w',
    CreateEpics.create_epic title body labels w = (Return PyNone, w')
    ∧ calls w' =
        calls w ++ create ::
          ((λ label, {| argv := ["gh"; "issue"; "edit"; "None"; "--add-label"; label];
                        input := None |}) <$> labels).
Proof.
  cbv zeta. intros Hcode Hparse Hnum. rewrite create_epic_run. cbv zeta.
  rewrite Hcode. cbn [Z.eqb negb].
  assert (get (PyDict kv) "number" = mret PyNone) as Hget.
  { unfold get, get_default. destruct (assoc_last "number" kv); cbn in Hnum; by subst. }
  eexists. split.
  - eapply try_except_return.
    erewrite bind_return by (unfold loads; rewrite Hparse; reflexivity).
    erewrite bind_return by (rewrite Hget; reflexivity).
    erewrite bind_return by apply print_run.
    erewrite bind_return by apply epic_labels_run.
    reflexivity.
  - cbn [calls]. rewrite <- app_assoc. reflexivity.
Qed.

Lemma epic_without_number_labels_issue_none_witness :
  let reply := "{" +:+ DQ +:+ "message" +:+ DQ +:+ ":" +:+ DQ +:+ "queued" +:+ DQ +:+ "}" in
  let rt := Samples.runtime_of [(reply, PyDict [("message", PyStr "queued")])] in
  ∃ w',
    CreateEpics.create_epic (H := rt) "t" "b" ["epic"; "phase-0"]
      (Samples.start [Samples.ok reply]) = (Return PyNone, w')
    ∧ calls w' =
        [] ++ CreateEpics.create_call "t" "b" ::
          ((λ label, {| argv := ["gh"; "issue"; "edit"; "None"; "--add-label"; label];
                        input := None |}) <$> ["epic"; "phase-0"]).
Proof.
  cbv zeta.
  apply (epic_without_number_labels_issue_none
           (H := Samples.runtime_of
                   [("{" +:+ DQ +:+ "message" +:+ DQ +:+ ":" +:+ DQ +:+ "queued" +:+ DQ +:+ "}",
                     PyDict [("message", PyStr "queued")])])
           (H0 := Samples.playback) "t" "b" ["epic"; "phase-0"]
           (Samples.start
              [Samples.ok ("{" +:+ DQ +:+ "message" +:+ DQ +:+ ":" +:+ DQ +:+ "queued"
                             +:+ DQ +:+ "}")])
           [("message", PyStr "queued")]); reflexivity.
Defined.

(** ** scripts/create_github_issues.py: looking a milestone up *)

Section Quiet.
Context `{External}.

Lemma quiet_ret {A} (a : A) : quiet (mret a).
Proof. by intros w. Qed.

Lemma quiet_raise {A} k msg : quiet (raise (A := A) k msg).
Proof. by intros w. Qed.

Lemma quiet_print s : quiet (print s).
Proof. by intros w. Qed.

Lemma quiet_bind {A B} (m : M A) (f : A → M B) :
  quiet m → (∀ a, quiet (f a)) → quiet (m ≫= f).
Proof.
  intros Hm Hf w. specialize (Hm w). destruct (m w) as [[a|e] w1] eqn:E.
  - erewrite bind_return by exact E. destruct (Hf a w1) as [C X].
    cbn in Hm. destruct Hm as [C1 X1]. by rewrite C, X, C1, X1.
  - erewrite bind_raise by exact E. exact Hm.
Qed.

Lemma quiet_try {A} (m : M A) (h : exn → M A) :
  quiet m → (∀ e, quiet (h e)) → quiet (try_except m h).
Proof.
  intros Hm Hh w. specialize (Hm w). destruct (m w) as [[a|e] w1] eqn:E.
  - erewrite try_except_return by exact E. exact Hm.
  - erewrite try_except_raise by exact E. destruct (Hh e w1) as [C X].
    cbn in Hm. destruct Hm as [C1 X1]. by rewrite C, X, C1, X1.
Qed.

(** A quiet computation inside a [try] whose handler returns [a]. *)
Lemma quiet_guarded {A} (m : M A) (a : A) w :
  quiet m →
  ∃ v w', try_except m (λ _, mret a) w = (Return v, w')
          ∧ calls w' = calls w ∧ external w' = external w.
Proof.
  intros Hm. destruct (Hm w) as [C X]. destruct (m w) as [[v|e] w1] eqn:E.
  - exists v, w1. by erewrite try_except_return.
  - exists a, w1. by erewrite try_except_raise.
Qed.

End Quiet.

Ltac quiet_step :=
  first
    [ apply quiet_ret
    | apply quiet_raise
    | apply quiet_print
    | apply quiet_bind; [|intros ?]
    | apply quiet_try; [|intros ?]
    | match goal with
      | |- quiet (match ?x with _ => _ end) => destruct x
      end ].

Section Milestones.
Context `{Runtime} `{External}.
Import CreateGithubIssues.

Lemma find_milestone_quiet title ms : quiet (find_milestone title ms).
Proof.
  induction ms as [|m ms IH]; cbn [find_milestone];
    unfold get, get_default, getitem; repeat first [ exact IH | quiet_step ].
Qed.

Lemma search_quiet title text :
  quiet (milestones ← loads text; items ← py_iter milestones; find_milestone title items).
Proof.
  unfold loads, py_iter. repeat first [ apply find_milestone_quiet | quiet_step ].
Qed.

Lemma find_milestone_passes title m ms w :
  other_milestone title m →
  find_milestone title (m :: ms) w = find_milestone title ms w.
Proof.
  intros (kv & -> & Hne). cbn [find_milestone].
  erewrite bind_return by reflexivity.
  destruct (assoc_last "title" kv) as [[]|]; try reflexivity.
  destruct (String.eqb s title) eqn:Heq; [|reflexivity].
  apply String.eqb_eq in Heq. congruence.
Qed.

Lemma find_milestone_none title ms w :
  Forall (other_milestone title) ms → find_milestone title ms w = (Return None, w).
Proof.
  induction 1 as [|m ms Hm _ IH]; [done|]. by rewrite find_milestone_passes.
Qed.

Lemma find_milestone_first title pre kv post n w :
  Forall (other_milestone title) pre →
  assoc_last "title" kv = Some (PyStr title) →
  assoc_last "number" kv = Some n →
  find_milestone title (pre ++ PyDict kv :: post) w =
    (Return (Some n),
     World _ (external w)
       (printed w ++ ["📌 Using existing milestone: " +:+ title +:+ " (#" +:+ py_str n +:+ ")"])
       (calls w)).
Proof.
  intros Hpre Htitle Hnum. induction Hpre as [|m pre Hm _ IH].
  - cbn [app find_milestone].
    erewrite bind_return by (cbn; rewrite Htitle; reflexivity).
    cbv beta iota. rewrite String.eqb_refl.
    erewrite bind_return by (cbn; rewrite Hnum; reflexivity).
    erewrite bind_return by apply print_run.
    erewrite bind_return by (cbn; rewrite Hnum; reflexivity).
    reflexivity.
  - cbn [app]. by rewrite find_milestone_passes.
Qed.

(** What [create_milestone] does once its two listings have answered. *)
Lemma create_milestone_run title description w :
  create_milestone title description w =
    let e1 := (gh (external w) filtered_list_call).2 in
    let r := (gh e1 list_call).1 in
    let w2 := World _ (gh e1 list_call).2 (printed w)
                (calls w ++ [filtered_list_call; list_call]) in
    (found ← try_except
               (milestones ← loads (py_strip (stdout r));
                items ← py_iter milestones;
                find_milestone title items)
               (λ _, mret None);
     mret (default PyNone found)) w2.
Proof.
  unfold create_milestone.
  erewrite bind_return by apply run_gh_run.
  erewrite bind_return by apply run_gh_run.
  cbv zeta. cbn [external printed calls]. rewrite <- app_assoc. reflexivity.
Qed.

End Milestones.

(** X14: create_milestone returns the number of the first listed
    milestone with the title asked for.  When the second listing parses
    to a list whose entries before some object are objects with another
    title (or none), and that object has the title and a number, the
    function returns that number and reports the milestone as existing. *)
Theorem milestone_lookup_returns_first_match `{Runtime} `{External}
    (title description : string) (w : world)
    (pre post : list pyval) (kv : list (string * pyval)) (n : pyval) :
  let e1 := (gh (external w) CreateGithubIssues.filtered_list_call).2 in
  let listing := py_strip (stdout (gh e1 CreateGithubIssues.list_call).1) in
  json_loads listing = inr (PyList (pre ++ PyDict kv :: post)) →
  Forall (CreateGithubIssues.other_milestone title) pre →
  assoc_last "title" kv = Some (PyStr title) →
  assoc_last "number" kv = Some n →
  ∃ w',
    CreateGithubIssues.create_milestone title description w = (Return n, w')
    ∧ printed w' =
        printed w ++ ["📌 Using existing milestone: " +:+ title +:+ " (#" +:+ py_str n +:+ ")"].
Proof.
  cbv zeta. intros Hparse Hpre Htitle Hnum.
  rewrite create_milestone_run. cbv zeta.
  eexists. split.
  - erewrite bind_return; last first.
    { eapply try_except_return.
      erewrite bind_return by (unfold loads; rewrite Hparse; reflexivity).
      erewrite bind_return by reflexivity.
      by apply find_milestone_first. }
    reflexivity.
  - reflexivity.
Qed.

Lemma milestone_lookup_returns_first_match_witness :
  let listing := "[{...Phase 0...},{...Phase 1...}]" in
  let rt := Samples.runtime_of
              [ (listing,
                 PyList [ PyDict [("number", PyInt 1); ("title", PyStr "Phase 0: Prep & Hardening")];
                          PyDict [("number", PyInt 2);
                                  ("title", PyStr "Phase 1: Cloud Persistence + Sharing")] ]) ] in
  ∃ w',
    CreateGithubIssues.create_milestone (H := rt) "Phase 1: Cloud Persistence + Sharing"
      "Replace localStorage with cloud storage, enable canvas sharing with basic roles."
      (Samples.start [Samples.ok "1"; Samples.ok listing]) = (Return (PyInt 2), w')
    ∧ printed w' =
        [] ++ ["📌 Using existing milestone: Phase 1: Cloud Persistence + Sharing (#2)"].
Proof.
  cbv zeta.
  apply (milestone_lookup_returns_first_match
           (H := Samples.runtime_of
              [ ("[{...Phase 0...},{...Phase 1...}]",
                 PyList [ PyDict [("number", PyInt 1); ("title", PyStr "Phase 0: Prep & Hardening")];
                          PyDict [("number", PyInt 2);
                                  ("title", PyStr "Phase 1: Cloud Persistence + Sharing")] ]) ])
           (H0 := Samples.playback)
           "Phase 1: Cloud Persistence + Sharing"
           "Replace localStorage with cloud storage, enable canvas sharing with basic roles."
           (Samples.start [Samples.ok "1"; Samples.ok "[{...Phase 0...},{...Phase 1...}]"])
           [PyDict [("number", PyInt 1); ("title", PyStr "Phase 0: Prep & Hardening")]]
           []
           [("number", PyInt 2); ("title", PyStr "Phase 1: Cloud Persistence + Sharing")]
           (PyInt 2)); try reflexivity.
  apply Forall_singleton. eexists. split; [reflexivity|]. by vm_compute.
Defined.

(** X15: a block whose milestone is not found creates no issue.  When
    the second listing does not parse, or parses to a list of objects
    none of which has the block's milestone title, run_block makes the
    two listings and nothing else: none of the block's issues is
    created, and the block returns normally so that the next one runs. *)
Theorem block_without_milestone_creates_nothing `{Runtime} `{External}
    (b : CreateGithubIssues.block) (w : world) :
  let e1 := (gh (external w) CreateGithubIssues.filtered_list_call).2 in
  let listing := py_strip (stdout (gh e1 CreateGithubIssues.list_call).1) in
  (∃ msg, json_loads listing = inl msg)
  ∨ (∃ ms, json_loads listing = inr (PyList ms)
           ∧ Forall (CreateGithubIssues.other_milestone
                       (CreateGithubIssues.milestone_title b)) ms) →
  ∃ w',
    CreateGithubIssues.run_block b w = (Return (), w')
    ∧ calls w' =
        calls w ++ [CreateGithubIssues.filtered_list_call; CreateGithubIssues.list_call]
    ∧ printed w' = printed w ++ [LF +:+ CreateGithubIssues.banner b].
Proof.
  cbv zeta. intros Hnone. unfold CreateGithubIssues.run_block.
  erewrite bind_return by apply print_run.
  erewrite bind_return; last first.
  { rewrite create_milestone_run. cbv zeta. cbn [external printed calls].
    assert (∀ w2,
      try_except
        (milestones ← loads
           (py_strip
              (stdout (gh (gh (external w) CreateGithubIssues.filtered_list_call).2
                         CreateGithubIssues.list_call).1));
         items ← CreateGithubIssues.py_iter milestones;
         CreateGithubIssues.find_milestone (CreateGithubIssues.milestone_title b) items)
        (λ _, mret None) w2 = (Return None, w2)) as Hsearch.
    { intros w2. destruct Hnone as [[msg Hparse]|(ms & Hparse & Hms)].
      - erewrite try_except_raise; [reflexivity|].
        erewrite bind_raise; [reflexivity|]. unfold loads. rewrite Hparse. reflexivity.
      - eapply try_except_return.
        erewrite bind_return by (unfold loads; rewrite Hparse; reflexivity).
        erewrite bind_return by reflexivity.
        by apply find_milestone_none. }
    erewrite bind_return by apply Hsearch. reflexivity. }
  cbn [default truthy]. eexists. split; [reflexivity|]. split; reflexivity.
Qed.

Lemma block_without_milestone_creates_nothing_witness :
  let b := {| CreateGithubIssues.banner := "=== PHASE 5: Export Pipeline ===";
              CreateGithubIssues.milestone_title := "Phase 5: Export Pipeline";
              CreateGithubIssues.milestone_description :=
                "Export designs to usable formats for building real applications.";
              CreateGithubIssues.block_issues :=
                [ ("Build Export Dialog UI", "Create user interface for exporting designs.",
                   ["frontend"; "export"]) ] |} in
  ∃ w',
    CreateGithubIssues.run_block (H := Samples.runtime) b
      (Samples.start [Samples.failed "HTTP 404"; Samples.failed "HTTP 404"]) = (Return (), w')
    ∧ calls w' = [] ++ [CreateGithubIssues.filtered_list_call; CreateGithubIssues.list_call]
    ∧ printed w' = [] ++ [LF +:+ "=== PHASE 5: Export Pipeline ==="].
Proof.
  cbv zeta.
  apply (block_without_milestone_creates_nothing (H := Samples.runtime)
           (H0 := Samples.playback)
           {| CreateGithubIssues.banner := "=== PHASE 5: Export Pipeline ===";
              CreateGithubIssues.milestone_title := "Phase 5: Export Pipeline";
              CreateGithubIssues.milestone_description :=
                "Export designs to usable formats for building real applications.";
              CreateGithubIssues.block_issues :=
                [ ("Build Export Dialog UI", "Create user interface for exporting designs.",
                   ["frontend"; "export"]) ] |}
           (Samples.start [Samples.failed "HTTP 404"; Samples.failed "HTTP 404"])).
  left. eexists. reflexivity.
Defined.

(** ** scripts/create_github_issues.py: calls that are not listings *)

Section Issues.
Context `{Runtime} `{External}.
Import CreateGithubIssues.



End Issues.

(** ** scripts/create_milestones_and_issues.py: the empty catalog *)

(** X19: main of create_milestones_and_issues.py completes only on an
    empty catalog.  For every catalog and every behaviour of the external
    system, main returns normally if and only if the catalog has no
    phase; and on the empty catalog it makes no invocation and prints its
    banner and its closing lines. *)
Theorem main_completes_only_on_empty_catalog `{Runtime} `{External}
    (PHASES : list (string * CreateMilestonesAndIssues.phase)) (e : ext) :
  ((CreateMilestonesAndIssues.main CreateMilestonesAndIssues.module_globals PHASES
      (initial e)).1 = Return () ↔ PHASES = [])
  ∧ CreateMilestonesAndIssues.main CreateMilestonesAndIssues.module_globals [] (initial e) =
      (Return (),
       World _ e
         [ "🚀 Creating GitHub Milestones, Epics, and Issues";
           py_mul "=" 60;
           LF +:+ py_mul "=" 60;
           "✨ Done! All milestones, epics, and issues created.";
           "📊 Visit the Issues tab to see your roadmap!" ]
         []).
Proof.
  split; [|reflexivity]. split.
  - destruct PHASES as [|[name p] rest]; [done|]. by rewrite main_raises.
  - by intros ->.
Qed.

(** ** scripts/link_issues_graphql.py: how the id table is filled *)

Section IdTable.
Context `{Runtime} `{External}.
Import LinkIssuesGraphql.

(** However [get_issue_id] ends, it has made exactly its one query. *)
Lemma get_issue_id_calls issue_num w :
  calls (get_issue_id issue_num w).2 = calls w ++ [id_call issue_num].
Proof.
  rewrite get_issue_id_run. cbv zeta. destruct (Z.eqb _ _); [|reflexivity].
  match goal with
  | |- calls (?m ?w1).2 = _ =>
      assert (quiet m) as Hq
        by (unfold loads, getitem; repeat quiet_step);
      destruct (Hq w1) as [C _]; rewrite C
  end.
  reflexivity.
Qed.

Lemma bind_ext {A B} (m : M A) (f g : A → M B) w :
  (∀ a w1, f a w1 = g a w1) → (m ≫= f) w = (m ≫= g) w.
Proof.
  intros Hfg. unfold mbind, M_bind. destruct (m w) as [[a|e] w1]; [apply Hfg|done].
Qed.

Lemma fold_each_app {A S} (l1 l2 : list A) (body : S → A → M S) : ∀ s w,
  fold_each (l1 ++ l2) s body w = (s' ← fold_each l1 s body; fold_each l2 s' body) w.
Proof.
  induction l1 as [|x l1 IH]; intros s w; [done|].
  cbn [fold_each app]. unfold mbind, M_bind.
  destruct (body s x w) as [[s1|e] w1]; [|done]. apply IH.
Qed.

(** The two nested loops of [fetch_children] are one loop over all the
    children. *)
Lemma fold_each_concat {A S} (groups : list (list A)) (body : S → A → M S) : ∀ s w,
  fold_each groups s (λ s group, fold_each group s body) w
  = fold_each (concat groups) s body w.
Proof.
  induction groups as [|group groups IH]; intros s w; [done|].
  cbn [fold_each concat]. rewrite fold_each_app. apply bind_ext. apply IH.
Qed.

Lemma fetch_missing (children : list Z) :
  ∀ (issue_ids : gmap Z pyval) (w : world) (ids' : gmap Z pyval) (w' : world),
  fold_each children issue_ids (λ issue_ids child_num,
    match issue_ids !! child_num with
    | None => id ← get_issue_id child_num; mret (<[child_num := id]> issue_ids)
    | Some _ => mret issue_ids
    end) w = (Return ids', w') →
  ∃ fresh,
    calls w' = calls w ++ (id_call <$> fresh)
    ∧ NoDup fresh
    ∧ (∀ n, n ∈ fresh ↔ n ∈ children ∧ issue_ids !! n = None)
    ∧ dom ids' = dom issue_ids ∪ list_to_set fresh
    ∧ (∀ k, is_Some (issue_ids !! k) → ids' !! k = issue_ids !! k).
Proof.
  induction children as [|c children IH]; intros issue_ids w ids' w' Hrun.
  - cbn in Hrun. injection Hrun as <- <-. exists []. split_and!.
    + by rewrite app_nil_r.
    + constructor.
    + intros n. split; [by intros ?%elem_of_nil|by intros [?%elem_of_nil _]].
    + set_solver.
    + done.
  - cbn [fold_each] in Hrun. destruct (issue_ids !! c) as [v|] eqn:Hc.
    + erewrite bind_return in Hrun by reflexivity.
      destruct (IH _ _ _ _ Hrun) as (fresh & C & N & Hin & D & K).
      exists fresh. split_and!; try done.
      intros n. rewrite Hin, elem_of_cons. split; [naive_solver|].
      intros [[->|Hn] Hnone]; [congruence|done].
    + pose proof (get_issue_id_calls c w) as Hcalls.
      destruct (get_issue_id c w) as [[v|e] w1] eqn:Hid.
      2: { erewrite bind_raise in Hrun; [discriminate|].
           erewrite bind_raise; [reflexivity|exact Hid]. }
      erewrite bind_return in Hrun; last first.
      { erewrite bind_return by exact Hid. reflexivity. }
      destruct (IH _ _ _ _ Hrun) as (fresh & C & N & Hin & D & K).
      cbn [snd] in Hcalls.
      assert (c ∉ fresh) as Hfresh.
      { intros Hcf. apply Hin in Hcf as [_ Hnone]. by rewrite lookup_insert_eq in Hnone. }
      exists (c :: fresh). split_and!.
      * rewrite C, Hcalls, <- app_assoc. reflexivity.
      * by constructor.
      * intros n. rewrite !elem_of_cons, Hin. split.
        -- intros [->|[Hn Hnone]]; [by auto|].
           destruct (decide (n = c)) as [->|Hne]; [by auto|].
           rewrite lookup_insert_ne in Hnone by done. by auto.
        -- intros [[->|Hn] Hnone]; [by left|].
           destruct (decide (n = c)) as [->|Hne]; [by left|].
           right. split; [done|]. by rewrite lookup_insert_ne.
      * rewrite D, dom_insert_L. set_solver.
      * intros k Hk. destruct (decide (k = c)) as [->|Hne].
        -- rewrite Hc in Hk. by destruct Hk.
        -- rewrite K; [by rewrite lookup_insert_ne|]. by rewrite lookup_insert_ne.
Qed.

End IdTable.

(** X20: fetch_children queries each missing child exactly once and
    keeps what the table already holds.  Whenever fetch_children returns,
    the invocations it made are id queries for distinct issue numbers,
    namely the children of the map that had no entry in the table; the
    table it returns has an entry for each of them besides the entries it
    had, and every earlier entry is unchanged. *)
Theorem fetch_children_queries_each_missing_child_once `{Runtime} `{External}
    (pm : list (Z * list Z)) (issue_ids ids' : gmap Z pyval) (w w' : world) :
  LinkIssuesGraphql.fetch_children pm issue_ids w = (Return ids', w') →
  ∃ fresh,
    calls w' = calls w ++ (LinkIssuesGraphql.id_call <$> fresh)
    ∧ NoDup fresh
    ∧ (∀ n, n ∈ fresh ↔ n ∈ concat pm.*2 ∧ issue_ids !! n = None)
    ∧ dom ids' = dom issue_ids ∪ list_to_set fresh
    ∧ (∀ k, is_Some (issue_ids !! k) → ids' !! k = issue_ids !! k).
Proof.
  unfold LinkIssuesGraphql.fetch_children. rewrite fold_each_concat.
  apply fetch_missing.
Qed.

Lemma fetch_children_queries_each_missing_child_once_witness :
  let ids : gmap Z pyval := <[45 := PyStr "I_45"]> ∅ in
  ∃ fresh,
    calls (LinkIssuesGraphql.fetch_children (H := Samples.runtime) [(45, [12; 45; 12])] ids
             (Samples.start [Samples.ok (Samples.id_reply "I_12")])).2 =
      [] ++ (LinkIssuesGraphql.id_call <$> fresh)
    ∧ NoDup fresh
    ∧ (∀ n, n ∈ fresh ↔ n ∈ concat [(45, [12; 45; 12])].*2 ∧ ids !! n = None)
    ∧ dom (<[12 := PyStr "I_12"]> ids) = dom ids ∪ list_to_set fresh
    ∧ (∀ k, is_Some (ids !! k) → <[12 := PyStr "I_12"]> ids !! k = ids !! k).
Proof.
  cbv zeta.
  exact (fetch_children_queries_each_missing_child_once
           (H := Samples.runtime) (H0 := Samples.playback)
           [(45, [12; 45; 12])] (<[45 := PyStr "I_45"]> ∅)
           (<[12 := PyStr "I_12"]> (<[45 := PyStr "I_45"]> ∅))
           (Samples.start [Samples.ok (Samples.id_reply "I_12")])
           (World Samples.playback [] [] [LinkIssuesGraphql.id_call 12])
           eq_refl).
Defined.

(** * Runs in which subprocess.run raises *)

(** ** Reasoning about calls that may raise *)

Section Attempts.
Context `{External} `{!Faults}.

Lemma subprocess_run_completes args stdin w :
  fault (external w) {| argv := args; input := stdin |} = None →
  subprocess_run args stdin w =
    (Return (gh (external w) {| argv := args; input := stdin |}).1,
     World _ (gh (external w) {| argv := args; input := stdin |}).2 (printed w)
       (calls w ++ [{| argv := args; input := stdin |}])).
Proof. intros E. unfold subprocess_run. cbv zeta. rewrite E. by destruct (gh _ _). Qed.

Lemma subprocess_run_raises args stdin w x e' :
  fault (external w) {| argv := args; input := stdin |} = Some (x, e') →
  subprocess_run args stdin w =
    (Raise x, World _ e' (printed w) (calls w ++ [{| argv := args; input := stdin |}])).
Proof. intros E. unfold subprocess_run. cbv zeta. by rewrite E. Qed.

Lemma after_app e l1 l2 : after e (l1 ++ l2) = after (after e l1) l2.
Proof. apply foldl_app. Qed.

Lemma attempts_ret {A} (a : A) : attempts (mret a) [].
Proof. intros w. left. exists a. cbn. by rewrite app_nil_r. Qed.

Lemma attempts_print s : attempts (print s) [].
Proof. intros w. left. exists (). cbn. by rewrite app_nil_r. Qed.

Lemma attempts_run args stdin :
  attempts (subprocess_run args stdin) [{| argv := args; input := stdin |}].
Proof.
  intros w.
  destruct (fault (external w) {| argv := args; input := stdin |}) as [[x e']|] eqn:E.
  - right. exists x, [], {| argv := args; input := stdin |}.
    rewrite (subprocess_run_raises _ _ _ _ _ E). by cbn.
  - left. rewrite (subprocess_run_completes _ _ _ E). eexists. by cbn.
Qed.

Lemma attempts_bind {A B} (m : M A) (f : A → M B) l1 l2 :
  attempts m l1 → (∀ a, attempts (f a) l2) → attempts (m ≫= f) (l1 ++ l2).
Proof.
  intros Hm Hf w.
  destruct (Hm w) as [(a & E & C & X)|(x & pre & inv & E & C & P & F)];
    destruct (m w) as [o w1] eqn:Em; cbn [fst snd] in *; subst o.
  - erewrite bind_return by exact Em.
    destruct (Hf a w1) as [(b & E2 & C2 & X2)|(x & pre & inv & E2 & C2 & P2 & F2)].
    + left. exists b. split_and!; [done| |].
      * by rewrite C2, C, app_assoc.
      * by rewrite X2, X, after_app.
    + right. exists x, (l1 ++ pre), inv. split_and!; [done| | |].
      * by rewrite C2, C, !app_assoc.
      * rewrite <- app_assoc. by apply prefix_app.
      * rewrite after_app, <- X. exact F2.
  - erewrite bind_raise by exact Em. right. exists x, pre, inv.
    split_and!; [done|done| |done]. by apply prefix_app_r.
Qed.

Lemma attempts_bind_first {A B} (m : M A) (f : A → M B) l :
  attempts m l → (∀ a, attempts (f a) []) → attempts (m ≫= f) l.
Proof. intros Hm Hf. rewrite <- (app_nil_r l). by apply attempts_bind. Qed.

Lemma attempts_bind_then {A B} (m : M A) (f : A → M B) l :
  attempts m [] → (∀ a, attempts (f a) l) → attempts (m ≫= f) l.
Proof. intros Hm Hf. change l with ([] ++ l). by apply attempts_bind. Qed.

Lemma attempts_for_each {A} (l : list A) (body : A → M unit) (invs : A → list invocation) :
  (∀ x, x ∈ l → attempts (body x) (invs x)) → attempts (for_each l body) (l ≫= invs).
Proof.
  induction l as [|x l IH]; intros Hbody; cbn [for_each].
  - apply attempts_ret.
  - change ((x :: l) ≫= invs) with (invs x ++ (l ≫= invs)).
    apply attempts_bind; [apply Hbody; by left|].
    intros _. apply IH. intros y Hy. apply Hbody. by right.
Qed.

(** A computation that makes no invocation and returns. *)
Lemma attempts_quiet {A} (m : M A) : quiet m → returns m → attempts m [].
Proof.
  intros Hq Hr w. left. destruct (Hr w) as (a & w' & E). exists a.
  destruct (Hq w) as [C X]. rewrite E in *. cbn [fst snd] in *.
  split_and!; [done| |done]. by rewrite app_nil_r.
Qed.


(** The script that runs [m] and then prints its last line. *)
Lemma attempts_then_print {A} (m : M A) l s w :
  attempts m l →
  let r := (m ≫= λ _, print s) w in
  (r.1 = Return () ∧ calls r.2 = calls w ++ l ∧ last (printed r.2) = Some s)
  ∨ stopped w l r.
Proof.
  intros Hm. cbv zeta.
  destruct (Hm w) as [(a & E & C & X)|(x & pre & inv & E & C & P & F)];
    destruct (m w) as [o w1] eqn:Em; cbn [fst snd] in *; subst o.
  - left. erewrite bind_return by exact Em. rewrite print_run. cbn [fst snd calls printed].
    split_and!; [done|done|]. apply last_snoc.
  - right. erewrite bind_raise by exact Em. by exists x, pre, inv.
Qed.

End Attempts.

(** ** The passes that make one call per entry *)

Section Passes.
Context `{Runtime} `{External} `{!Faults}.

Lemma hierarchy_link_child_attempts epic_num child_num :
  attempts
    (LinkIssuesHierarchy.link_child epic_num
       ("https://api.github.com/repos/goblinsan/visual-flow/issues/" +:+ pretty epic_num)
       child_num)
    [LinkIssuesHierarchy.patch_call epic_num child_num].
Proof.
  unfold LinkIssuesHierarchy.link_child.
  apply attempts_bind_first; [apply attempts_run|].
  intros r. destruct (Z.eqb _ _); apply attempts_print.
Qed.

Lemma populate_update_attempts issue_num body :
  attempts (PopulateIssueDescriptions.update_issue_body issue_num body)
    [PopulateIssueDescriptions.patch_call issue_num body].
Proof.
  unfold PopulateIssueDescriptions.update_issue_body.
  apply attempts_bind_first; [apply attempts_run|].
  intros r. destruct (Z.eqb _ _);
    (apply attempts_bind_first; [apply attempts_print|intros _; apply attempts_ret]).
Qed.

Lemma link_sub_issue_attempts parent_id child_id :
  attempts (LinkIssuesGraphql.link_sub_issue parent_id child_id)
    [LinkIssuesGraphql.link_call parent_id child_id].
Proof.
  unfold LinkIssuesGraphql.link_sub_issue.
  apply attempts_bind_first; [apply attempts_run|]. intros r. apply attempts_ret.
Qed.

Lemma link_children_attempts issue_ids epic_num parent_id children :
  attempts (LinkIssuesGraphql.link_children issue_ids epic_num parent_id children)
    (children ≫= λ child_num,
       if truthy (LinkIssuesGraphql.ids_get issue_ids child_num)
       then [LinkIssuesGraphql.link_call parent_id
               (LinkIssuesGraphql.ids_get issue_ids child_num)]
       else []).
Proof.
  unfold LinkIssuesGraphql.link_children. apply attempts_for_each. intros child_num _.
  destruct (truthy (LinkIssuesGraphql.ids_get issue_ids child_num)); cbn [negb].
  - apply attempts_bind_first; [apply link_sub_issue_attempts|].
    intros [[] err]; apply attempts_print.
  - apply attempts_print.
Qed.

Lemma run_gh_attempts args :
  attempts (CreateGithubIssues.run_gh args) [{| argv := "gh" :: args; input := None |}].
Proof.
  unfold CreateGithubIssues.run_gh.
  apply attempts_bind_first; [apply attempts_run|]. intros r. apply attempts_ret.
Qed.

Lemma create_milestone_attempts title description :
  attempts (CreateGithubIssues.create_milestone title description)
    [CreateGithubIssues.filtered_list_call; CreateGithubIssues.list_call].
Proof.
  unfold CreateGithubIssues.create_milestone.
  change [CreateGithubIssues.filtered_list_call; CreateGithubIssues.list_call]
    with ([CreateGithubIssues.filtered_list_call] ++ [CreateGithubIssues.list_call]).
  apply attempts_bind; [apply run_gh_attempts|]. intros _.
  apply attempts_bind_first; [apply run_gh_attempts|]. intros [[milestones_out ?] ?].
  apply attempts_quiet.
  - apply quiet_bind; [|intros ?; apply quiet_ret].
    apply quiet_try; [apply search_quiet|]. intros _. apply quiet_ret.
  - intros w.
    destruct (quiet_guarded
                (milestones ← loads milestones_out;
                 items ← CreateGithubIssues.py_iter milestones;
                 CreateGithubIssues.find_milestone title items)
                None w (search_quiet title milestones_out)) as (found & w' & E & _).
    eexists _, w'. erewrite bind_return by exact E. reflexivity.
Qed.

End Passes.

(** X1: link_issues_hierarchy.py makes one PATCH per child, in the order
    of the id map, each naming the child's issue and the URL of its
    epic, whatever exit status and output the calls end with.  The
    script returns normally, with the summary as the last line printed,
    unless subprocess.run raises on one of these calls: then the script
    ends with that exception, the PATCH on which it was raised being the
    last one made. *)
Theorem hierarchy_script_patches_until_a_call_raises `{Runtime} `{External} `{!Faults}
    (pm : list (Z * list Z)) (e : ext) :
  let patches :=
    pm ≫= (λ '(epic_num, children), LinkIssuesHierarchy.patch_call epic_num <$> children) in
  let r := LinkIssuesHierarchy.script pm (initial e) in
  (r.1 = Return () ∧ calls r.2 = patches
   ∧ last (printed r.2) = Some LinkIssuesHierarchy.summary)
  ∨ stopped (initial e) patches r.
Proof.
  cbv zeta. unfold LinkIssuesHierarchy.script.
  erewrite bind_return by apply print_run.
  set (patches := pm ≫= _).
  match goal with
  | |- context [mbind (λ _, print ?s) ?m ?w1] =>
      assert (attempts m patches) as Hm;
        [|destruct (attempts_then_print m patches s w1 Hm) as [Hret|Hstop];
          [left; exact Hret|right; exact Hstop]]
  end.
  unfold patches.
  replace (pm ≫= _) with
    (pm ≫= (λ '(epic_num, children),
       children ≫= λ c, [LinkIssuesHierarchy.patch_call epic_num c])).
  - apply attempts_for_each. intros [epic_num children] _.
    apply attempts_bind_then; [apply attempts_print|]. intros _.
    apply attempts_for_each. intros c _. apply hierarchy_link_child_attempts.
  - clear. induction pm as [|[epic_num children] pm IH]; [done|]. cbn. rewrite IH. f_equal.
Qed.

(** X2: populate_issue_descriptions.py rewrites the listed issues in
    ascending order of issue number: its invocations are one PATCH per
    entry of ISSUE_DETAILS carrying that entry's text, sorted by issue
    number (the dictionary lookup in the loop cannot fail).  The script
    returns normally, with the summary as the last line printed, unless
    subprocess.run raises on one of these calls: then the script ends
    with that exception and the later entries are not rewritten. *)
Theorem populate_script_patches_in_key_order `{Runtime} `{External} `{!Faults}
    (details : gmap Z string) (e : ext) :
  ∃ entries,
    entries ≡ₚ map_to_list details
    ∧ Sorted Z.le entries.*1
    ∧ let patches :=
        (λ '(k, body), PopulateIssueDescriptions.patch_call k body) <$> entries in
      let r := PopulateIssueDescriptions.script details (initial e) in
      (r.1 = Return () ∧ calls r.2 = patches
       ∧ last (printed r.2) = Some (LF +:+ "✅ All issues populated with descriptions!"))
      ∨ stopped (initial e) patches r.
Proof.
  set (keys := merge_sort Z.le (map_to_list details).*1).
  set (entry := λ k : Z, (k, default "" (details !! k))).
  assert (∀ k, k ∈ keys → ∃ body, details !! k = Some body) as Hkeys.
  { intros k Hk. unfold keys in Hk. rewrite merge_sort_Permutation in Hk.
    apply list_elem_of_fmap in Hk as ([k' body] & -> & Hin).
    exists body. by apply elem_of_map_to_list. }
  exists (entry <$> keys). split_and!.
  - unfold keys. rewrite merge_sort_Permutation.
    rewrite <- list_fmap_compose. apply reflexive_eq, fmap_fixed.
    intros [k body] Hin. apply elem_of_map_to_list in Hin.
    unfold entry, compose. cbn. by rewrite Hin.
  - rewrite <- list_fmap_compose.
    replace ((fst ∘ entry) <$> keys) with keys by (by rewrite list_fmap_id).
    apply Sorted_merge_sort. apply _.
  - cbv zeta. unfold PopulateIssueDescriptions.script.
    erewrite bind_return by apply print_run. fold keys.
    set (patches := _ <$> (entry <$> keys)).
    match goal with
    | |- context [mbind (λ _, print ?s) ?m ?w1] =>
        assert (attempts m patches) as Hm;
          [|destruct (attempts_then_print m patches s w1 Hm) as [Hret|Hstop];
            [left; exact Hret|right; exact Hstop]]
    end.
    unfold patches.
    set (invs := λ k : Z,
           [PopulateIssueDescriptions.patch_call k (default "" (details !! k))]).
    replace ((λ '(k, body), PopulateIssueDescriptions.patch_call k body) <$> (entry <$> keys))
      with (keys ≫= invs).
    + apply attempts_for_each. intros k Hk. destruct (Hkeys k Hk) as [body Hbody].
      unfold invs. rewrite Hbody.
      apply attempts_bind_first; [apply populate_update_attempts|].
      intros _. apply attempts_ret.
    + clear. induction keys as [|k ks IH]; [done|]. cbn. by rewrite IH.
Qed.

(** X8: link_all attempts a link exactly for the pairs whose two ids are
    known.  For every id table its invocations are, in the order of the
    map, one linkSubIssue call with replaceParent=true for each child
    with a truthy id under each epic with a truthy id: an epic without
    an id skips all its children, a child without an id skips only
    itself, and a refused link stops nothing.  It returns normally
    unless subprocess.run raises on one of these calls: then it ends
    with that exception, that call being the last one made. *)
Theorem link_all_links_resolved_pairs `{Runtime} `{External} `{!Faults}
    (pm : list (Z * list Z)) (issue_ids : gmap Z pyval) (w : world) :
  let id := LinkIssuesGraphql.ids_get issue_ids in
  let links :=
    pm ≫= λ '(epic_num, children),
      if truthy (id epic_num)
      then children ≫= λ child_num,
             if truthy (id child_num)
             then [LinkIssuesGraphql.link_call (id epic_num) (id child_num)]
             else []
      else [] in
  let r := LinkIssuesGraphql.link_all pm issue_ids w in
  (r.1 = Return () ∧ calls r.2 = calls w ++ links)
  ∨ stopped w links r.
Proof.
  cbv zeta.
  set (expected := pm ≫= _).
  assert (attempts (LinkIssuesGraphql.link_all pm issue_ids) expected) as Hall.
  { unfold LinkIssuesGraphql.link_all. apply attempts_for_each.
    intros [epic_num children] _.
    destruct (truthy (LinkIssuesGraphql.ids_get issue_ids epic_num)); cbn [negb].
    - apply attempts_bind_then; [apply attempts_print|]. intros _.
      apply link_children_attempts.
    - apply attempts_print. }
  destruct (Hall w) as [([] & E & C & _)|Hstop]; [by left|by right].
Qed.

(** X13: create_milestone of create_github_issues.py only reads.  For
    every title and description its invocations are the two listings of
    the repository's milestones and nothing else, so it never asks for a
    milestone to be created, and what the listings answer cannot make it
    raise.  It returns unless subprocess.run raises on one of the two
    listings: then it ends with that exception, that listing being the
    last call made. *)
Theorem milestone_lookup_only_lists `{Runtime} `{External} `{!Faults}
    (title description : string) (w : world) :
  let listings := [CreateGithubIssues.filtered_list_call; CreateGithubIssues.list_call] in
  let r := CreateGithubIssues.create_milestone title description w in
  ((∃ v, r.1 = Return v) ∧ calls r.2 = calls w ++ listings
   ∨ stopped w listings r)
  ∧ argv CreateGithubIssues.list_call =
      ["gh"; "api"; "/repos/goblinsan/visual-flow/milestones"].
Proof.
  cbv zeta. split; [|reflexivity].
  destruct (create_milestone_attempts title description w) as [(v & E & C & _)|Hstop];
    [left|by right].
  split; [by exists v|done].
Qed.

(** ** Creation calls and the label calls behind a try *)

Section Labelled.
Context `{Runtime} `{External} `{!Faults}.






Lemma create_call_argv title body milestone_num :
  CreateGithubIssues.create_call title body milestone_num =
    {| argv := "gh" :: (if truthy milestone_num
                        then ([ "api"; "-X"; "POST";
                                "/repos/" +:+ CreateGithubIssues.REPO +:+ "/issues";
                                "-f"; "title=" +:+ title;
                                "-f"; "body=" +:+ body ]
                              ++ ["-f"; "milestone=" +:+ py_str milestone_num])%list
                        else [ "api"; "-X"; "POST";
                               "/repos/" +:+ CreateGithubIssues.REPO +:+ "/issues";
                               "-f"; "title=" +:+ title;
                               "-f"; "body=" +:+ body ]);
       input := None |}.
Proof. unfold CreateGithubIssues.create_call. by destruct (truthy milestone_num). Qed.


End Labelled.


(** ** When only the label calls can raise *)

Section EpicsUnderFaults.
Context `{Runtime} `{External} `{!Faults}.
Import CreateEpics.
Hypothesis only_labels :
  ∀ e0 inv x e1, fault e0 inv = Some (x, e1) → ∃ num label, inv = label_call num label.



End EpicsUnderFaults.



Section IssuesUnderFaults.
Context `{Runtime} `{External} `{!Faults}.
Import CreateGithubIssues.
Hypothesis only_labels :
  ∀ e0 inv x e1, fault e0 inv = Some (x, e1) → ∃ num label, inv = label_call num label.







End IssuesUnderFaults.



(** ** scripts/create_milestones_and_issues.py: the helper *)

(** X18: run_gh_command lets no exception of subprocess.run out and
    reports every failure as None.  For every command it hands one
    command line, gh followed by the command, to subprocess.run and
    returns.  If subprocess.run raises, the result is None and the line
    printed is "Exception running command: " followed by the text of
    the exception.  If the call completes, the result is None exactly
    when the exit status is not 0, in which case the command line and
    the error text are printed, and otherwise it is the stripped output
    and nothing is printed. *)
Theorem run_gh_command_turns_failures_into_none `{Runtime} `{External} `{!Faults}
    (cmd : list string) (w : world) :
  let inv := {| argv := "gh" :: cmd; input := None |} in
  let r := (gh (external w) inv).1 in
  ∃ o w',
    CreateMilestonesAndIssues.run_gh_command cmd w = (Return o, w')
    ∧ calls w' = calls w ++ [inv]
    ∧ match fault (external w) inv with
      | Some (x, e') =>
          o = None
          ∧ external w' = e'
          ∧ printed w' = printed w ++ ["Exception running command: " +:+ message x]
      | None =>
          external w' = (gh (external w) inv).2
          ∧ (o = None ↔ returncode r ≠ 0)
          ∧ (returncode r = 0 → o = Some (py_strip (stdout r)) ∧ printed w' = printed w)
          ∧ (returncode r ≠ 0 →
             printed w' = printed w ++ [ "Error running command: " +:+ py_join " " cmd;
                                         "stderr: " +:+ stderr r ])
      end.
Proof.
  cbv zeta. unfold CreateMilestonesAndIssues.run_gh_command.
  destruct (fault (external w) {| argv := "gh" :: cmd; input := None |}) as [[x e']|] eqn:F.
  { eexists _, _. split.
    { erewrite try_except_raise; last first.
      { erewrite bind_raise; [reflexivity|]. apply subprocess_run_raises. exact F. }
      erewrite bind_return by apply print_run. reflexivity. }
    by cbn. }
  destruct (Z.eqb (returncode (gh (external w) {| argv := "gh" :: cmd; input := None |}).1) 0)
    eqn:Hcode.
  - apply Z.eqb_eq in Hcode as Hzero.
    eexists _, _. split.
    { eapply try_except_return.
      erewrite bind_return by (apply subprocess_run_completes; exact F).
      rewrite Hcode. reflexivity. }
    cbn [calls external printed]. split_and!; [reflexivity|reflexivity| |done|done].
    split; [discriminate|done].
  - apply Z.eqb_neq in Hcode as Hnonzero.
    eexists _, _. split.
    { eapply try_except_return.
      erewrite bind_return by (apply subprocess_run_completes; exact F).
      rewrite Hcode. cbn [negb].
      erewrite bind_return by apply print_run.
      erewrite bind_return by apply print_run.
      reflexivity. }
    cbn [calls external printed]. split_and!; [reflexivity|reflexivity|done|done|].
    intros _. by rewrite <- app_assoc.
Qed.

(** The creation driver when [gh] cannot be started: with the two names
    bound, every helper call is reported and answered with None, no
    exception gets out, and the driver reaches its last line. *)
Example driver_without_gh :
  let r := CreateMilestonesAndIssues.main (H := Samples.runtime) (H1 := Samples.gh_missing)
             Samples.names_bound Samples.scenario (Samples.start []) in
  r.1 = Return ()
  ∧ length (calls r.2) = 1%nat
  ∧ "Exception running command: [Errno 2] No such file or directory: 'gh'" ∈ printed r.2
  ∧ last (printed r.2) = Some "📊 Visit the Issues tab to see your roadmap!".
Proof.
  cbv zeta. split_and!; try (by vm_compute). apply (bool_decide_unpack _). by vm_compute.
Qed.

(** ** An exception while a label is added *)

(** X21: an exception of subprocess.run while a label is added makes
    create_epic and create_issue report the created object as None.
    When the creation call exits with 0 and its output parses to an
    object, and subprocess.run raises on the call that adds the first
    label, each function returns None although the object was created:
    its invocations are the creation call and that label call, the
    remaining labels are not sent, and create_epic prints the text of
    the exception as a parse error while create_issue prints nothing
    about it. *)
Theorem label_exception_reports_created_object_as_none `{Runtime} `{External} `{!Faults}
    (title body label : string) (labels : list string) (milestone_num : pyval)
    (w1 w2 : world) (kv1 kv2 : list (string * pyval)) (x1 x2 : exn) (e1 e2 : ext) :
  let epic_call := CreateEpics.create_call title body in
  let issue_call := CreateGithubIssues.create_call title body milestone_num in
  let epic_num := default PyNone (assoc_last "number" kv1) in
  let issue_num := default PyNone (assoc_last "number" kv2) in
  fault (external w1) epic_call = None →
  returncode (gh (external w1) epic_call).1 = 0 →
  json_loads (stdout (gh (external w1) epic_call).1) = inr (PyDict kv1) →
  fault (gh (external w1) epic_call).2 (CreateEpics.label_call epic_num label)
    = Some (x1, e1) →
  fault (external w2) issue_call = None →
  returncode (gh (external w2) issue_call).1 = 0 →
  json_loads (py_strip (stdout (gh (external w2) issue_call).1)) = inr (PyDict kv2) →
  fault (gh (external w2) issue_call).2 (CreateGithubIssues.label_call issue_num label)
    = Some (x2, e2) →
  CreateEpics.create_epic title body (label :: labels) w1 =
    (Return PyNone,
     World _ e1
       (printed w1 ++ [ "  ✅ Epic #" +:+ py_str epic_num +:+ ": " +:+ py_prefix 40 title;
                        "  ❌ Parse error: " +:+ message x1 ])
       (calls w1 ++ [epic_call; CreateEpics.label_call epic_num label]))
  ∧ CreateGithubIssues.create_issue title body milestone_num (label :: labels) w2 =
      (Return PyNone,
       World _ e2
         (printed w2 ++ [ "    📋 Creating issue: " +:+ py_prefix 50 title +:+ "...";
                          "    ✅ Issue #" +:+ py_str issue_num ])
         (calls w2 ++ [issue_call; CreateGithubIssues.label_call issue_num label])).
Proof.
  cbv zeta. intros F1 C1 P1 L1 F2 C2 P2 L2. split.
  - unfold CreateEpics.create_epic. fold (CreateEpics.create_call title body).
    erewrite bind_return by (apply subprocess_run_completes; exact F1).
    fold (CreateEpics.create_call title body).
    rewrite C1. cbn [Z.eqb negb].
    erewrite try_except_raise; last first.
    { unfold loads. rewrite P1.
      erewrite bind_return by reflexivity.
      erewrite bind_return by reflexivity.
      erewrite bind_return by apply print_run.
      cbn [for_each].
      erewrite bind_raise; [reflexivity|].
      erewrite bind_raise; [reflexivity|].
      unfold CreateEpics.add_label.
      erewrite bind_raise; [reflexivity|].
      apply subprocess_run_raises. exact L1. }
    erewrite bind_return by apply print_run.
    cbn [external printed calls]. by rewrite <- !app_assoc.
  - rewrite create_call_argv in *. unfold CreateGithubIssues.create_issue.
    erewrite bind_return by apply print_run. cbv zeta.
    unfold CreateGithubIssues.run_gh at 1.
    erewrite bind_return; last first.
    { erewrite bind_return; [reflexivity|]. apply subprocess_run_completes. exact F2. }
    cbn [external printed calls]. rewrite C2. cbn [Z.eqb negb].
    erewrite try_except_raise; last first.
    { unfold loads. rewrite P2.
      erewrite bind_return by reflexivity.
      erewrite bind_return by reflexivity.
      erewrite bind_return by apply print_run.
      cbn [for_each].
      erewrite bind_raise; [reflexivity|].
      erewrite bind_raise; [reflexivity|].
      unfold CreateGithubIssues.add_label, CreateGithubIssues.run_gh.
      erewrite bind_raise; [reflexivity|].
      erewrite bind_raise; [reflexivity|].
      apply subprocess_run_raises. exact L2. }
    cbn [external printed calls]. by rewrite <- !app_assoc.
Qed.

Lemma label_exception_reports_created_object_as_none_witness :
  let reply := Samples.ok (Samples.number_reply 10) in
  let raised := Exn ValueError "embedded null byte" in
  CreateEpics.create_epic (H := Samples.runtime) (H1 := Samples.labels_fault)
    "Phase 0" "Stabilize" ["epic"; "phase-0"] (Samples.start [reply]) =
    (Return PyNone,
     World Samples.playback []
       [ "  ✅ Epic #10: Phase 0"; "  ❌ Parse error: embedded null byte" ]
       [ CreateEpics.create_call "Phase 0" "Stabilize";
         CreateEpics.label_call (H := Samples.runtime) (PyInt 10) "epic" ])
  ∧ CreateGithubIssues.create_issue (H := Samples.runtime) (H1 := Samples.labels_fault)
      "Phase 0" "Stabilize" (PyInt 3) ["epic"; "phase-0"] (Samples.start [reply]) =
      (Return PyNone,
       World Samples.playback []
         [ "    📋 Creating issue: Phase 0..."; "    ✅ Issue #10" ]
         [ CreateGithubIssues.create_call (H := Samples.runtime) "Phase 0" "Stabilize" (PyInt 3);
           CreateGithubIssues.label_call (H := Samples.runtime) (PyInt 10) "epic" ]).
Proof.
  cbv zeta.
  exact (label_exception_reports_created_object_as_none (H := Samples.runtime)
           (H0 := Samples.playback) (H1 := Samples.labels_fault)
           "Phase 0" "Stabilize" "epic" ["phase-0"] (PyInt 3)
           (Samples.start [Samples.ok (Samples.number_reply 10)])
           (Samples.start [Samples.ok (Samples.number_reply 10)])
           [("number", PyInt 10)] [("number", PyInt 10)]
           (Exn ValueError "embedded null byte") (Exn ValueError "embedded null byte")
           [] []
           eq_refl eq_refl eq_refl eq_refl eq_refl eq_refl eq_refl eq_refl).
Defined.
